(** * Meander: the tree map's store, selection and gesture logic

    A shallow embedding of the React application of [src/App.jsx]
    (the variant with [utils/api.js] and [components/NewTreeForm.jsx]):
    the feature collection held in [treeLocations], the add and remove
    handlers, the species toggle, the visible-tree summary, the highlight
    filters, the double-tap gesture and the debounced viewport handler.

    Conventions of the embedding:
    - a JavaScript string is a [string]; [!s] on a string is [negb (truthy s)];
    - a JavaScript number holding an identifier or a millisecond clock is a
      [Z]; a pixel or degree coordinate is a rational [Q];
    - a handler is a computation in the monad [M]: it threads the component
      state, appends to a log of the effects it performs on the outside world
      and may throw (a rejected promise that nobody catches);
    - what the outside world answers (the backend's response, the text typed
      into [window.prompt], what the map has rendered) is an argument. *)

From Stdlib Require Import ZArith QArith Qabs Lia Lra List Ascii String Sorted Permutation.
From stdpp Require Import base tactics option list strings.

Local Open Scope string_scope.
Local Open Scope Z_scope.
Local Open Scope list_scope.

(** ** JavaScript values used by the application *)

Module Js.

(** [!!s] for a string: every string but the empty one is truthy. *)
Definition truthy (s : string) : bool :=
  match s with
  | EmptyString => false
  | String _ _ => true
  end.

(** White space stripped by [String.prototype.trimEnd], for the code
    points below 128: space, tab, line feed, vertical tab, form feed and
    carriage return. *)
Definition is_space (a : ascii) : bool :=
  let n := nat_of_ascii a in
  (n =? 32)%nat || ((9 <=? n)%nat && (n <=? 13)%nat).

Definition is_empty (s : string) : bool := negb (truthy s).

Fixpoint trimEnd (s : string) : string :=
  match s with
  | EmptyString => EmptyString
  | String a rest =>
      let r := trimEnd rest in
      if is_space a && is_empty r then EmptyString else String a r
  end.

(** A value stored in a layer filter: the application writes strings and
    numbers there. [===] never relates a string to a number. *)
Inductive value :=
| Str (s : string)
| Num (n : Z).

Definition strict_eq (v w : value) : bool :=
  match v, w with
  | Str s, Str t => String.eqb s t
  | Num n, Num m => Z.eqb n m
  | _, _ => false
  end.

End Js.

(** ** Data model: [utils/api.js] *)

(** A row of [GET /trees] or the body answered by [POST /trees]. *)
Record Tree := mkTree {
  tree_location_id : Z;
  tree_tree_id : string;
  tree_latin_name : string;
  tree_common_name : string;
  tree_latitude : Q;
  tree_longitude : Q;
  tree_source : string;
  tree_is_native : bool;
}.

Record Properties := mkProperties {
  location_id : Z;
  tree_id : string;
  latin_name : string;
  source : string;
  common_name : string;
  is_native : bool;
}.

Record Geometry := mkGeometry {
  geometry_type : string;
  coordinates : Q * Q;
}.

Record Feature := mkFeature {
  feature_type : string;
  geometry : Geometry;
  properties : Properties;
}.

(** The GeoJSON object kept in the [treeLocations] state: the application
    only ever builds it with the two fields [type] and [features]. *)
Record FeatureCollection := mkFeatureCollection {
  collection_type : string;
  features : list Feature;
}.

Definition treeToFeature (tree : Tree) : Feature :=
  {| feature_type := "Feature";
     geometry := {| geometry_type := "Point";
                    coordinates := (tree_longitude tree, tree_latitude tree) |};
     properties := {| location_id := tree_location_id tree;
                      tree_id := tree_tree_id tree;
                      latin_name := tree_latin_name tree;
                      source := tree_source tree;
                      common_name := tree_common_name tree;
                      is_native := tree_is_native tree |} |}.

(** The JSON body of [POST /trees] ([date_added], read from the wall clock,
    is left out). *)
Record AddPayload := mkAddPayload {
  payload_tree_id : string;
  payload_latin_name : string;
  payload_common_name : string;
  payload_latitude : Q;
  payload_longitude : Q;
  payload_source : string;
  payload_is_native : bool;
}.

(** What [fetch] gives back: a 2xx response with its JSON body, a response
    whose [ok] is false, or a rejected promise. *)
Inductive Response (A : Type) :=
| Ok2xx (body : A)
| NotOk (status : Z)
| NetworkError.
Arguments Ok2xx {A} body.
Arguments NotOk {A} status.
Arguments NetworkError {A}.

Definition failed {A} (r : Response A) : Prop :=
  match r with
  | Ok2xx _ => False
  | _ => True
  end.

(** The state of [NewTreeForm]. *)
Record FormState := mkFormState {
  form_common_name : string;
  form_latitude : Q;
  form_longitude : Q;
  form_is_native : bool;
  form_tree_id : string;
  form_family : string;
  form_latin_name : string;
  form_state_distribution : string;
  form_source : string;
}.

(** ** The map surface: [mapRef.current] *)

(** What [queryRenderedFeatures] returns for the two circle layers: a tree
    drawn on its own, or a cluster ([properties.cluster] is true). *)
Record ClusterProperties := mkCluster {
  cluster_id : Z;
  point_count : Z;
}.

Inductive Rendered :=
| Point (f : Feature)
| Cluster (c : ClusterProperties).

Definition is_cluster (r : Rendered) : bool :=
  match r with
  | Cluster _ => true
  | Point _ => false
  end.

Definition get_property (r : Rendered) (key : string) : option Js.value :=
  match r with
  | Point f =>
      if String.eqb key "common_name" then Some (Js.Str (common_name (properties f)))
      else if String.eqb key "location_id" then Some (Js.Num (location_id (properties f)))
      else if String.eqb key "tree_id" then Some (Js.Str (tree_id (properties f)))
      else if String.eqb key "latin_name" then Some (Js.Str (latin_name (properties f)))
      else if String.eqb key "source" then Some (Js.Str (source (properties f)))
      else None
  | Cluster c =>
      if String.eqb key "cluster_id" then Some (Js.Num (cluster_id c))
      else if String.eqb key "point_count" then Some (Js.Num (point_count c))
      else None
  end.

(** A layer filter [["in", key, v1, ..., vn]]. *)
Record Filter := mkFilter {
  filter_key : string;
  filter_values : list Js.value;
}.

Definition matches (flt : Filter) (r : Rendered) : bool :=
  match get_property r (filter_key flt) with
  | Some v => existsb (Js.strict_eq v) (filter_values flt)
  | None => false
  end.

(** The part of the map the application reads and writes. The first four
    fields are the map's own business (what it has drawn for the current
    viewport and source data); the application only queries them. *)
Record Map := mkMap {
  rendered_points : list Feature;
  rendered_clusters : list ClusterProperties;
  cluster_leaves : Z -> option (list Feature);
  rendered_at : Q * Q -> list Rendered;
  source_data : FeatureCollection;
  highlighted_point : Filter;
  highlighted_cluster : Filter;
  popup_open : bool;
}.

Definition setFilter_highlighted_point (flt : Filter) (m : Map) : Map :=
  mkMap (rendered_points m) (rendered_clusters m) (cluster_leaves m) (rendered_at m)
        (source_data m) flt (highlighted_cluster m) (popup_open m).

Definition setFilter_highlighted_cluster (flt : Filter) (m : Map) : Map :=
  mkMap (rendered_points m) (rendered_clusters m) (cluster_leaves m) (rendered_at m)
        (source_data m) (highlighted_point m) flt (popup_open m).

Definition popup_remove (m : Map) : Map :=
  mkMap (rendered_points m) (rendered_clusters m) (cluster_leaves m) (rendered_at m)
        (source_data m) (highlighted_point m) (highlighted_cluster m) false.

(** ** Component state of [App] *)

Record Tap := mkTap {
  tap_point : Q * Q;
  tap_time : Z;
}.

Record AppState := mkApp {
  sourceNameRef : string;
  lastTapRef : Tap;
  treeLocations : FeatureCollection;
  visibleTrees : list (string * list Rendered);
  highlightedTree : option string;
  isTreeListVisible : bool;
  isFormVisible : bool;
  newTreeCoordinates : option (Q * Q);
  layersLoaded : bool;
  mapRef : Map;
}.

Definition set_sourceNameRef (v : string) (s : AppState) : AppState :=
  mkApp v (lastTapRef s) (treeLocations s) (visibleTrees s) (highlightedTree s)
        (isTreeListVisible s) (isFormVisible s) (newTreeCoordinates s) (layersLoaded s) (mapRef s).

Definition set_lastTapRef (v : Tap) (s : AppState) : AppState :=
  mkApp (sourceNameRef s) v (treeLocations s) (visibleTrees s) (highlightedTree s)
        (isTreeListVisible s) (isFormVisible s) (newTreeCoordinates s) (layersLoaded s) (mapRef s).

Definition setTreeLocations (v : FeatureCollection) (s : AppState) : AppState :=
  mkApp (sourceNameRef s) (lastTapRef s) v (visibleTrees s) (highlightedTree s)
        (isTreeListVisible s) (isFormVisible s) (newTreeCoordinates s) (layersLoaded s) (mapRef s).

Definition setVisibleTrees (v : list (string * list Rendered)) (s : AppState) : AppState :=
  mkApp (sourceNameRef s) (lastTapRef s) (treeLocations s) v (highlightedTree s)
        (isTreeListVisible s) (isFormVisible s) (newTreeCoordinates s) (layersLoaded s) (mapRef s).

Definition setHighlightedTree (v : option string) (s : AppState) : AppState :=
  mkApp (sourceNameRef s) (lastTapRef s) (treeLocations s) (visibleTrees s) v
        (isTreeListVisible s) (isFormVisible s) (newTreeCoordinates s) (layersLoaded s) (mapRef s).

Definition setIsFormVisible (v : bool) (s : AppState) : AppState :=
  mkApp (sourceNameRef s) (lastTapRef s) (treeLocations s) (visibleTrees s) (highlightedTree s)
        (isTreeListVisible s) v (newTreeCoordinates s) (layersLoaded s) (mapRef s).

Definition setNewTreeCoordinates (v : option (Q * Q)) (s : AppState) : AppState :=
  mkApp (sourceNameRef s) (lastTapRef s) (treeLocations s) (visibleTrees s) (highlightedTree s)
        (isTreeListVisible s) (isFormVisible s) v (layersLoaded s) (mapRef s).

Definition set_mapRef (v : Map) (s : AppState) : AppState :=
  mkApp (sourceNameRef s) (lastTapRef s) (treeLocations s) (visibleTrees s) (highlightedTree s)
        (isTreeListVisible s) (isFormVisible s) (newTreeCoordinates s) (layersLoaded s) v.

(** ** Handlers as computations *)

(** What a handler does to the outside world, in order. *)
Inductive Effect :=
| fetch_POST_trees (body : AddPayload)
| fetch_PUT_trees_remove (locationId : Z) (removed_by : string)
| console_error (msg : string)
| window_alert (msg : string)
| window_prompt (msg default : string)
| preventDefault.

Inductive Outcome (A : Type) :=
| Returned (a : A)
| Thrown (error : string).
Arguments Returned {A} a.
Arguments Thrown {A} error.

Module Handler.

Definition M (A : Type) : Type := AppState -> Outcome A * AppState * list Effect.

Definition ret {A} (a : A) : M A := fun s => (Returned a, s, []).

Definition bind {A B} (m : M A) (k : A -> M B) : M B :=
  fun s =>
    match m s with
    | (Returned a, s1, log1) =>
        match k a s1 with
        | (o, s2, log2) => (o, s2, log1 ++ log2)
        end
    | (Thrown e, s1, log1) => (Thrown e, s1, log1)
    end.

Definition throw {A} (e : string) : M A := fun s => (Thrown e, s, []).

(** [try { body } catch (error) { handler(error) }] *)
Definition try_catch {A} (body : M A) (handler : string -> M A) : M A :=
  fun s =>
    match body s with
    | (Returned a, s1, log1) => (Returned a, s1, log1)
    | (Thrown e, s1, log1) =>
        match handler e s1 with
        | (o, s2, log2) => (o, s2, log1 ++ log2)
        end
    end.

Definition get : M AppState := fun s => (Returned s, s, []).
Definition modify (f : AppState -> AppState) : M unit := fun s => (Returned tt, f s, []).
Definition perform (e : Effect) : M unit := fun s => (Returned tt, s, [e]).

Definition state_after {A} (r : Outcome A * AppState * list Effect) : AppState := snd (fst r).
Definition outcome_of {A} (r : Outcome A * AppState * list Effect) : Outcome A := fst (fst r).
Definition effects_of {A} (r : Outcome A * AppState * list Effect) : list Effect := snd r.

End Handler.
Import Handler.

Notation "'val' x <- m ; k" := (bind m (fun x => k))
  (at level 10, x name, m at level 100, k at level 200, only parsing).
Notation "'do' m ; k" := (bind m (fun _ => k))
  (at level 10, m at level 100, k at level 200, only parsing).

(** ** [utils/api.js]: the two writes *)

(** The backend, as the answers it gives. *)
Record Backend := mkBackend {
  POST_trees : AddPayload -> Response Tree;
  PUT_trees_remove : Z -> string -> Response unit;
}.

(** [await fetch(...)] followed by the [response.ok] test and [response.json()]. *)
Definition fetch_json {A} (request : Effect) (answer : Response A) : M A :=
  do perform request;
  match answer with
  | NetworkError => throw "TypeError: Failed to fetch"
  | NotOk status => throw "HTTP error! status"
  | Ok2xx body => ret body
  end.

Definition sendRemoveLocation (backend : Backend) (locationId : Z) (removedBy : string) : M unit :=
  try_catch
    (fetch_json (fetch_PUT_trees_remove locationId removedBy)
                (PUT_trees_remove backend locationId removedBy))
    (fun error => do perform (console_error "Error removing tree with location_id"); throw error).

Definition sendAddLocation (backend : Backend) (body : AddPayload) : M Tree :=
  try_catch
    (fetch_json (fetch_POST_trees body) (POST_trees backend body))
    (fun error => do perform (console_error "Error adding new tree:"); throw error).

(** ** [App]: add, remove and select *)

(** The object passed to [sendAddLocation]. *)
Definition sent_for (newTree : FormState) : AddPayload :=
  {| payload_tree_id := form_tree_id newTree;
     payload_latin_name := form_latin_name newTree;
     payload_common_name := form_common_name newTree;
     payload_latitude := form_latitude newTree;
     payload_longitude := form_longitude newTree;
     payload_source := Js.trimEnd (form_source newTree);
     payload_is_native := form_is_native newTree |}.

(** The handler closes over the [treeLocations] of the render that created
    it; run on its own, that is the state it starts from. *)
Definition handleAddTreeSubmit (backend : Backend) (newTree : FormState) : M unit :=
  val captured <- get;
  let treeLocations := treeLocations captured in
  try_catch
    (do modify (set_sourceNameRef (form_source newTree));
     val addedTree <- sendAddLocation backend (sent_for newTree);
     do modify (setTreeLocations
       {| collection_type := collection_type treeLocations;
          features := features treeLocations ++ [treeToFeature addedTree] |});
     modify (setIsFormVisible false))
    (fun error => perform (console_error "Error adding new tree:")).

(** A feature that a removal of [locationId] keeps. *)
Definition other_than (locationId : Z) (feature : Feature) : Prop :=
  location_id (properties feature) <> locationId.

#[local] Instance other_than_dec locationId feature : Decision (other_than locationId feature).
Proof. unfold other_than. apply _. Defined.

(** [removeTree] as the popup effect of a render defines it: the closure
    holds the [treeLocations] of that render, while [sourceNameRef.current] is
    read when it runs. [answer] is what [window.prompt] returns: [None] when
    the dialog is cancelled. *)
Definition removeTree_of (treeLocations : FeatureCollection) (backend : Backend)
    (answer : option string) (locationId : Z) : M unit :=
  val current <- get;
  do perform (window_prompt "Please enter your name to confirm removal:" (sourceNameRef current));
  match answer with
  | None => ret tt
  | Some removedBy =>
      if negb (Js.truthy removedBy) then ret tt
      else
        let removedBy := Js.trimEnd removedBy in
        do modify (set_sourceNameRef removedBy);
        do sendRemoveLocation backend locationId removedBy;
        let updatedFeatures :=
          filter (other_than locationId) (features treeLocations) in
        modify (setTreeLocations
          {| collection_type := collection_type treeLocations;
             features := updatedFeatures |})
  end.

(** The [removeTree] of the render that is current when it runs: the one a
    popup opened since the last change of the store calls. *)
Definition removeTree (backend : Backend) (answer : option string) (locationId : Z) : M unit :=
  val captured <- get;
  removeTree_of (treeLocations captured) backend answer locationId.

(** What [removeTree] sends: nothing when the prompt is cancelled or left
    empty, otherwise the name without its trailing white space. *)
Definition confirmed_by (answer : option string) : option string :=
  match answer with
  | Some removedBy => if Js.truthy removedBy then Some (Js.trimEnd removedBy) else None
  | None => None
  end.

(** ** [App]: the popup and its button *)

Definition popup_addTo (m : Map) : Map :=
  mkMap (rendered_points m) (rendered_clusters m) (cluster_leaves m) (rendered_at m)
        (source_data m) (highlighted_point m) (highlighted_cluster m) true.

(** What the click listener of the popup's close button holds:
    [(event) => handlePopupButtonClose(event, locationProperties.location_id)],
    where [handlePopupButtonClose] calls the [removeTree] of the render whose
    effect made it. Nothing takes the listener off or replaces it until the
    popup is filled again. *)
Record PopupButton := mkPopupButton {
  button_location_id : Z;
  button_treeLocations : FeatureCollection;
}.

(** [handlePointEntry] as registered by the effect of [rendered], on a
    [mousedown] or [touchstart] whose first feature is [feature]: the popup is
    shown and its button is given the listener. *)
Definition handlePointEntry (rendered : AppState) (feature : Feature) : M PopupButton :=
  do modify (fun s => set_mapRef (popup_addTo (mapRef s)) s);
  ret (mkPopupButton (location_id (properties feature)) (treeLocations rendered)).

(** A click on the button. *)
Definition handlePopupButtonClose (backend : Backend) (answer : option string)
    (button : PopupButton) : M unit :=
  do perform preventDefault;
  removeTree_of (button_treeLocations button) backend answer (button_location_id button).

Definition handleTreeListClick (treeName : string) : M unit :=
  val st <- get;
  let treeName :=
    if decide (Some treeName = highlightedTree st) then None else Some treeName in
  modify (setHighlightedTree treeName).

(** The state after a click on the entry of species [k]. *)
Definition select (k : string) (st : AppState) : AppState :=
  state_after (handleTreeListClick k st).

(** ** [NewTreeForm.handleSubmit] *)

Definition handleSubmit (onSubmit : option (FormState -> M unit)) (formState : FormState) : M unit :=
  do perform preventDefault;
  if negb (Js.truthy (form_common_name formState)) || negb (Js.truthy (form_source formState))
  then perform (window_alert "Please fill out all required fields.")
  else
    match onSubmit with
    | Some onSubmit => onSubmit formState
    | None => ret tt
    end.

(** ** More of JavaScript: promises, [Set], objects used as maps, [sort] *)

(** A promise that has settled: fulfilled with a value or rejected. *)
Module Promise.

Definition and_then {A B} (p : Outcome A) (k : A -> Outcome B) : Outcome B :=
  match p with
  | Returned a => k a
  | Thrown e => Thrown e
  end.

(** [list.reduce(async (accPromise, x) => { const acc = await accPromise; ... }, Promise.resolve(init))]
    and a [for] loop with [await] in its body: the steps run in order and
    the first rejection is the result. *)
Fixpoint reduce {A B} (step : B -> A -> Outcome B) (l : list A) (init : B) : Outcome B :=
  match l with
  | [] => Returned init
  | x :: rest => and_then (step init x) (reduce step rest)
  end.

Definition await {A} (p : Outcome A) : M A := fun s => (p, s, []).

End Promise.

Module JsSet.

(** A [Set] of numbers, as its values in insertion order. *)
Definition add (s : list Z) (x : Z) : list Z :=
  if existsb (Z.eqb x) s then s else s ++ [x].

(** [Array.from(new Set(xs))] *)
Definition from (xs : list Z) : list Z := fold_left add xs [].

End JsSet.

Module JsArray.

(** [Array.prototype.sort(compare)], which is stable: an element moves in
    front of another only when [compare] puts it strictly first. For a
    comparator that is a consistent order every stable sort returns the
    same array; this one inserts from the right. *)
Fixpoint insert {A} (compare : A -> A -> Z) (x : A) (l : list A) : list A :=
  match l with
  | [] => [x]
  | y :: rest => if (compare x y <=? 0)%Z then x :: y :: rest else y :: insert compare x rest
  end.

Definition sort {A} (compare : A -> A -> Z) (l : list A) : list A :=
  fold_right (insert compare) [] l.

End JsArray.

Module JsObject.

(** An object literal [{}] filled by assignment: its own properties in the
    order they were created. *)
Definition t (V : Type) : Type := list (string * V).

(** The properties every object inherits from [Object.prototype]: each is
    a function, or for [__proto__] the prototype itself, so each is truthy
    and none has a [push]. *)
Definition Object_prototype : list string :=
  [ "constructor"; "__proto__"; "hasOwnProperty"; "isPrototypeOf";
    "propertyIsEnumerable"; "toLocaleString"; "toString"; "valueOf";
    "__defineGetter__"; "__defineSetter__"; "__lookupGetter__"; "__lookupSetter__" ].

Inductive Lookup (V : Type) :=
| Own (v : V)
| Inherited
| Undefined.
Arguments Own {V} v.
Arguments Inherited {V}.
Arguments Undefined {V}.

Fixpoint own {V} (o : t V) (key : string) : option V :=
  match o with
  | [] => None
  | (k, v) :: rest => if String.eqb k key then Some v else own rest key
  end.

(** [o[key]] *)
Definition get {V} (o : t V) (key : string) : Lookup V :=
  match own o key with
  | Some v => Own v
  | None => if existsb (String.eqb key) Object_prototype then Inherited else Undefined
  end.

(** [o[key] = v], for a key that is not inherited. *)
Fixpoint set {V} (o : t V) (key : string) (v : V) : t V :=
  match o with
  | [] => [(key, v)]
  | (k, w) :: rest => if String.eqb k key then (k, v) :: rest else (k, w) :: set rest key v
  end.

Definition digit (a : ascii) : option N :=
  let n := N_of_ascii a in
  if ((48 <=? n) && (n <=? 57))%N then Some (n - 48)%N else None.

Fixpoint digits (acc : N) (s : string) : option N :=
  match s with
  | EmptyString => Some acc
  | String a rest =>
      match digit a with
      | Some d => digits (10 * acc + d)%N rest
      | None => None
      end
  end.

(** An array index: the canonical decimal writing of an integer below
    [2^32 - 1]. *)
Definition array_index (key : string) : option N :=
  match key with
  | EmptyString => None
  | String a rest =>
      if (N_of_ascii a =? 48)%N && Js.truthy rest then None
      else match digits 0 key with
           | Some n => if (n <? 2 ^ 32 - 1)%N then Some n else None
           | None => None
           end
  end.

Definition is_array_index (key : string) : bool :=
  match array_index key with
  | Some _ => true
  | None => false
  end.

Definition index_of {V} (entry : string * V) : Z :=
  match array_index (fst entry) with
  | Some n => Z.of_N n
  | None => 0
  end.

(** [Object.entries(o)]: the keys that are array indices first, in
    ascending numeric order, then the other keys in creation order. *)
Definition entries {V} (o : t V) : list (string * V) :=
  JsArray.sort (fun a b => index_of a - index_of b)
               (List.filter (fun e => is_array_index (fst e)) o)
  ++ List.filter (fun e => negb (is_array_index (fst e))) o.

End JsObject.

(** ** [App]: the visible-tree summary *)

(** [source.getClusterLeaves(clusterId, Infinity, 0, callback)] as a promise:
    rejected on an error, otherwise fulfilled with the leaves (with [[]] for
    no leaves). *)
Definition getClusterFeatures (map : Map) (clusterId : Z) : Outcome (list Feature) :=
  match cluster_leaves map clusterId with
  | None => Thrown "getClusterLeaves failed"
  | Some leaves => Returned leaves
  end.

(** [Array.from(new Set(trees.map(f => f.properties.location_id)))
      .map(id => trees.find(f => f.properties.location_id === id))]:
    every id of the set comes from [trees], so [find] always finds. *)
Definition dedupe (trees : list Feature) : list Feature :=
  omap (fun id => List.find (fun feature => (location_id (properties feature) =? id)%Z) trees)
       (JsSet.from (List.map (fun feature => location_id (properties feature)) trees)).

(** The body of [features.forEach]: [cluster] is the rendered item being
    reduced, pushed once for each of its leaves. *)
Definition push_leaf (cluster : Rendered) (groups : JsObject.t (list Rendered)) (leaf : Feature)
  : Outcome (JsObject.t (list Rendered)) :=
  let common_name := common_name (properties leaf) in
  let groups :=
    match JsObject.get groups common_name with
    | JsObject.Undefined => JsObject.set groups common_name []
    | _ => groups
    end in
  match JsObject.get groups common_name with
  | JsObject.Own members => Returned (JsObject.set groups common_name (members ++ [cluster]))
  | _ => Thrown "TypeError: groups[common_name].push is not a function"
  end.

Definition leaves_of (map : Map) (cluster : Rendered) : Outcome (list Feature) :=
  match cluster with
  | Cluster c => getClusterFeatures map (cluster_id c)
  | Point f => Returned [f]
  end.

Definition group_step (map : Map) (groups : JsObject.t (list Rendered)) (cluster : Rendered)
  : Outcome (JsObject.t (list Rendered)) :=
  Promise.and_then (leaves_of map cluster)
    (fun features => Promise.reduce (push_leaf cluster) features groups).

Definition groupedTrees (map : Map) : Outcome (JsObject.t (list Rendered)) :=
  let trees := dedupe (rendered_points map) in
  let clusters := rendered_clusters map in
  Promise.reduce (group_step map) (List.map Point trees ++ List.map Cluster clusters) [].

(** [(a, b) => b[1].length - a[1].length] *)
Definition by_count (a b : string * list Rendered) : Z :=
  Z.of_nat (length (snd b)) - Z.of_nat (length (snd a)).

Definition updateVisibleTrees : M unit :=
  val st <- get;
  val groupedTrees <- Promise.await (groupedTrees (mapRef st));
  modify (setVisibleTrees (JsArray.sort by_count (JsObject.entries groupedTrees))).

(** The summary in words. [arrivals] are the leaves in the order the
    reduction meets them: the trees drawn on their own, each once, then the
    leaves of each cluster. [first_seen] lists the species of such leaves,
    each once, in the order of first appearance. *)
Definition meet (map : Map) (met : list Feature) (cluster : Rendered) : Outcome (list Feature) :=
  Promise.and_then (leaves_of map cluster) (fun leaves => Returned (met ++ leaves)).

Definition arrivals (map : Map) : Outcome (list Feature) :=
  Promise.reduce (meet map)
    (List.map Point (dedupe (rendered_points map)) ++ List.map Cluster (rendered_clusters map))
    [].

Definition see (seen : list string) (name : string) : list string :=
  if existsb (String.eqb name) seen then seen else seen ++ [name].

Definition first_seen (names : list string) : list string := fold_left see names [].

Definition species (leaves : list Feature) : list string :=
  List.map (fun leaf => common_name (properties leaf)) leaves.

(** A group with [n] members. *)
Definition counts (n : nat) (group : string * list Rendered) : bool :=
  (length (snd group) =? n)%nat.

(** ** [App]: the highlight filters *)

Definition highlight_step (map : Map) (treeName : string) (clusterIdsToHighlight : list Z)
    (cluster : ClusterProperties) : Outcome (list Z) :=
  let clusterId := cluster_id cluster in
  Promise.and_then (getClusterFeatures map clusterId)
    (fun leaves =>
       if existsb (fun leaf => String.eqb (common_name (properties leaf)) treeName) leaves
       then Returned (clusterIdsToHighlight ++ [clusterId])
       else Returned clusterIdsToHighlight).

Definition highlightTree (treeName : string) : M unit :=
  val st <- get;
  let allClusters := rendered_clusters (mapRef st) in
  val clusterIdsToHighlight <-
    Promise.await (Promise.reduce (highlight_step (mapRef st) treeName) allClusters []);
  do modify (fun s => set_mapRef
       (setFilter_highlighted_point (mkFilter "common_name" [Js.Str treeName]) (mapRef s)) s);
  modify (fun s => set_mapRef
       (setFilter_highlighted_cluster
          (mkFilter "cluster_id" (List.map Js.Num clusterIdsToHighlight)) (mapRef s)) s).

(** Whether a cluster has a leaf of species [treeName], as far as the map
    can tell. *)
Definition has_leaf_of (map : Map) (treeName : string) (cluster : ClusterProperties) : bool :=
  match cluster_leaves map (cluster_id cluster) with
  | Some leaves =>
      existsb (fun leaf => String.eqb (common_name (properties leaf)) treeName) leaves
  | None => false
  end.

(** The filters the layers are created with and the cleanup puts back. *)
Definition no_point : Filter := mkFilter "common_name" [Js.Str EmptyString].
Definition no_cluster : Filter := mkFilter "cluster_id" [Js.Str EmptyString].

Definition selected (layersLoaded : bool) (highlightedTree : option string) : option string :=
  match highlightedTree with
  | Some treeName => if layersLoaded && Js.truthy treeName then Some treeName else None
  | None => None
  end.

(** The callback of [debounce(() => highlightTree(highlightedTree), 300)]
    as the effect of the render [rendered] makes it: it runs [highlightTree]
    on the [highlightedTree] of that render, on the map as it is when the
    timer fires. The two listeners that call it are put on only when
    [layersLoaded && highlightedTree] holds in that render; the cleanup takes
    them off and cancels no timer. *)
Definition debouncedHighlightTree (rendered : AppState) : M unit :=
  match selected (layersLoaded rendered) (highlightedTree rendered) with
  | Some treeName => highlightTree treeName
  | None => ret tt
  end.

(** The same run for the render that is current: what the effect's setup
    does at once, [if (layersLoaded && highlightedTree)
    highlightTree(highlightedTree)], and what the callback does when the
    selection has not changed since its effect ran. *)
Definition viewport_settled_highlight : M unit :=
  val st <- get;
  debouncedHighlightTree st.

(** [useEffect(..., [layersLoaded, highlightedTree])] at the commit that
    follows the render of [prev]: nothing when the dependencies are the same;
    otherwise the previous cleanup, then the new setup. *)
Definition useEffect_highlightedTree (prev : AppState) : M unit :=
  val st <- get;
  if decide (layersLoaded prev = layersLoaded st /\ highlightedTree prev = highlightedTree st)
  then ret tt
  else
    do (match selected (layersLoaded prev) (highlightedTree prev) with
        | Some _ =>
            do modify (fun s => set_mapRef (setFilter_highlighted_point no_point (mapRef s)) s);
            modify (fun s => set_mapRef (setFilter_highlighted_cluster no_cluster (mapRef s)) s)
        | None => ret tt
        end);
    viewport_settled_highlight.

Definition setData (data : FeatureCollection) (m : Map) : Map :=
  mkMap (rendered_points m) (rendered_clusters m) (cluster_leaves m) (rendered_at m)
        data (highlighted_point m) (highlighted_cluster m) (popup_open m).

(** [useEffect(..., [layersLoaded, treeLocations])], the data-change
    listener. Every [setTreeLocations] stores a new object, so the effect
    runs at every commit that follows one. *)
Definition useEffect_treeLocations : M unit :=
  val st <- get;
  if layersLoaded st then modify (set_mapRef (setData (treeLocations st) (mapRef st)))
  else ret tt.

(** What the map draws, which it decides by itself from its source data and
    viewport. *)
Record Rendering := mkRendering {
  shows_points : list Feature;
  shows_clusters : list ClusterProperties;
  shows_leaves : Z -> option (list Feature);
  shows_at : Q * Q -> list Rendered;
}.

Definition redraw (r : Rendering) (m : Map) : Map :=
  mkMap (shows_points r) (shows_clusters r) (shows_leaves r) (shows_at r)
        (source_data m) (highlighted_point m) (highlighted_cluster m) (popup_open m).

(** A submitted add, followed by the commit of the state it set and by the
    map drawing the new data as [r]. *)
Definition add_and_commit (backend : Backend) (newTree : FormState) (r : Rendering) : M unit :=
  val prev <- get;
  do handleAddTreeSubmit backend newTree;
  do useEffect_treeLocations;
  do useEffect_highlightedTree prev;
  modify (fun s => set_mapRef (redraw r (mapRef s)) s).

(** ** [App]: taps on the map *)

Record MapTouchEvent := mkTouch {
  point : Q * Q;
  lngLat : Q * Q;
}.

Definition clickedOnFeature (map : Map) (point : Q * Q) : bool :=
  (0 <? length (rendered_at map point))%nat.

Definition closePopup : M unit :=
  modify (fun s => set_mapRef (popup_remove (mapRef s)) s).

(** [mousedown] on the map. *)
Definition handleMapClick (event : MapTouchEvent) : M unit :=
  val st <- get;
  if negb (clickedOnFeature (mapRef st) (point event)) then closePopup else ret tt.

Definition isSameLocation (point1 point2 : Q * Q) : bool :=
  let tapThresholdPixels := 10%Q in
  let tapDistanceX := Qabs (fst point1 - fst point2)%Q in
  let tapDistanceY := Qabs (snd point1 - snd point2)%Q in
  Qle_bool tapDistanceX tapThresholdPixels && Qle_bool tapDistanceY tapThresholdPixels.

Definition handleDoubleTouch (event : MapTouchEvent) : M unit :=
  do perform preventDefault;
  do modify (setNewTreeCoordinates (Some (lngLat event)));
  modify (setIsFormVisible true).

(** [currentTime] is what [new Date().getTime()] reads. *)
Definition handleMapTouch (currentTime : Z) (event : MapTouchEvent) : M unit :=
  val st <- get;
  let currentPoint := point event in
  if negb (clickedOnFeature (mapRef st) currentPoint) then
    do closePopup;
    let tapLength := currentTime - tap_time (lastTapRef st) in
    let isDoubleTapTime := (tapLength <? 200)%Z && (tapLength >? 0)%Z in
    let isDoubleTapSpace := isSameLocation currentPoint (tap_point (lastTapRef st)) in
    if isDoubleTapTime && isDoubleTapSpace then handleDoubleTouch event
    else modify (set_lastTapRef {| tap_point := currentPoint; tap_time := currentTime |})
  else ret tt.

(** The gesture in words: the remembered tap is earlier than this one by
    less than 200 ms and within 10 pixels of it along both axes. *)
Definition double_tap (last : Tap) (currentTime : Z) (currentPoint : Q * Q) : Prop :=
  0 < currentTime - tap_time last < 200
  /\ (-(10) <= fst currentPoint - fst (tap_point last) <= 10)%Q
  /\ (-(10) <= snd currentPoint - snd (tap_point last) <= 10)%Q.

(** ** [App]: the debounced summary *)

(** Modelled from the spec: [debounce] is lodash's, which is not among the
    sources. Section 4.2 of the specification has the settled signal emitted
    after a quiet period of the debounce window following the last raw event,
    a burst giving a single signal; that is lodash's documented behaviour for
    [debounce(func, wait)] with its default options. A debounced function is
    the deadline of its pending timer, if any: a call sets the deadline [wait]
    after the call, replacing an earlier one, and [func] runs once when the
    deadline is reached. *)
Module Debounce.

Record t := mk {
  wait : Z;
  deadline : option Z;
}.

(** Modelled from the spec: a new debounced function has nothing pending. *)
Definition debounce (wait : Z) : t := mk wait None.

(** Modelled from the spec: a raw event restarts the quiet period. *)
Definition call (now : Z) (d : t) : t := mk (wait d) (Some (now + wait d)).

(** Modelled from the spec: the signal is due once the quiet period is over. *)
Definition due (now : Z) (d : t) : bool :=
  match deadline d with
  | Some at_ => (at_ <=? now)%Z
  | None => false
  end.

(** Modelled from the spec: one signal per burst; nothing is pending after it. *)
Definition invoked (d : t) : t := mk (wait d) None.

End Debounce.

(** The component together with its debounced handler and a record of every
    time the handler ran: when, and on which state of the map. *)
Record Viewer := mkViewer {
  app : AppState;
  debouncedUpdateVisibleTrees : Debounce.t;
  recomputes : list (Z * Map);
}.

(** [debounce(() => updateVisibleTrees(), 300)], nothing pending yet. *)
Definition mounted (st : AppState) : Viewer :=
  mkViewer st (Debounce.debounce 300) [].

(** The timer's callback, [() => updateVisibleTrees()]. *)
Definition timer_fires (v : Viewer) : Viewer :=
  match Debounce.deadline (debouncedUpdateVisibleTrees v) with
  | Some at_ =>
      {| app := state_after (updateVisibleTrees (app v));
         debouncedUpdateVisibleTrees := Debounce.invoked (debouncedUpdateVisibleTrees v);
         recomputes := recomputes v ++ [(at_, mapRef (app v))] |}
  | None => v
  end.

Definition advance_to (now : Z) (v : Viewer) : Viewer :=
  if Debounce.due now (debouncedUpdateVisibleTrees v) then timer_fires v else v.

(** A [moveend] or [zoomend]: the map has come to rest showing [drawn]. *)
Record MoveEnd := mkMoveEnd {
  at_time : Z;
  drawn : Rendering;
}.

(** Both events call the same debounced function, and the listeners are
    there only while [layersLoaded && isTreeListVisible]. *)
Definition on_moveend (v : Viewer) (e : MoveEnd) : Viewer :=
  let v := advance_to (at_time e) v in
  let moved := set_mapRef (redraw (drawn e) (mapRef (app v))) (app v) in
  {| app := moved;
     debouncedUpdateVisibleTrees :=
       if layersLoaded moved && isTreeListVisible moved
       then Debounce.call (at_time e) (debouncedUpdateVisibleTrees v)
       else debouncedUpdateVisibleTrees v;
     recomputes := recomputes v |}.

(** A sequence of map events, then silence until every timer has run. *)
Definition after_events (events : list MoveEnd) (v : Viewer) : Viewer :=
  timer_fires (fold_left on_moveend events v).

(** Each event follows the one before it within [window] milliseconds. *)
Fixpoint burst (window : Z) (events : list MoveEnd) : Prop :=
  match events with
  | e1 :: ((e2 :: _) as rest) =>
      at_time e1 <= at_time e2 /\ at_time e2 - at_time e1 < window /\ burst window rest
  | _ => True
  end.

(** ** [App]: an add while a popup is open *)

(** A double click on the tree [feature]. The [mousedown] reaches
    [handleMapClick] and, on the tree's layer, the [handlePointEntry] of the
    current render, which shows the popup; the [dblclick] reaches
    [handleDoubleTouch], which does not look at what is under the pointer and
    opens the form. The add is then submitted and committed, the popup still
    being there. The result is the popup's button. *)
Definition add_under_open_popup (backend : Backend) (feature : Feature) (event : MapTouchEvent)
    (newTree : FormState) (r : Rendering) : M PopupButton :=
  val rendered <- get;
  do handleMapClick event;
  val button <- handlePointEntry rendered feature;
  do handleDoubleTouch event;
  do add_and_commit backend newTree r;
  ret button.

(** ** Sample data *)

Module Sample.

Definition oak1 : Feature :=
  treeToFeature (mkTree 1 "quru" "quercus rubra" "Oak" 42 (-71) "ann" true).
Definition oak2 : Feature :=
  treeToFeature (mkTree 2 "quru" "quercus rubra" "Oak" (420001 # 10000) (-710001 # 10000) "ann" true).
Definition maple3 : Feature :=
  treeToFeature (mkTree 3 "acsa" "acer saccharum" "Maple" 43 (-72) "bob" true).

Definition three_trees : FeatureCollection :=
  mkFeatureCollection "FeatureCollection" [oak1; oak2; maple3].

Definition blank_map : Map :=
  mkMap [] [] (fun _ => None) (fun _ => [])
        (mkFeatureCollection "FeatureCollection" []) no_point no_cluster false.

(** The component once the map, the data and the layers are loaded. *)
Definition loaded : AppState :=
  mkApp EmptyString (mkTap (0, 0)%Q 0) three_trees [] None false false None true
        (setData three_trees blank_map).

(** A backend that stores what it is sent and one that answers 500. *)
Definition accepting : Backend :=
  {| POST_trees := fun body =>
       Ok2xx (mkTree 4 (payload_tree_id body) (payload_latin_name body)
                     (payload_common_name body) (payload_latitude body)
                     (payload_longitude body) (payload_source body)
                     (payload_is_native body));
     PUT_trees_remove := fun _ _ => Ok2xx tt |}.

Definition refusing : Backend :=
  {| POST_trees := fun _ => NotOk 500;
     PUT_trees_remove := fun _ _ => NotOk 500 |}.

Definition oak_form : FormState :=
  mkFormState "Oak" (421 # 10) (-711 # 10) true "quru" "fagaceae" "quercus rubra" "['ma']" "ann ".

(** Zoomed out: the two oaks drawn as cluster 7, the maple on its own. *)
Definition cluster7 : ClusterProperties := mkCluster 7 2.

Definition zoomed_out : Rendering :=
  mkRendering [maple3] [cluster7]
              (fun clusterId => if clusterId =? 7 then Some [oak1; oak2] else None)
              (fun _ => []).

(** Zoomed in on the first oak and the maple, each drawn on its own. *)
Definition zoomed_in : Rendering :=
  mkRendering [oak1; maple3] [] (fun _ => None) (fun _ => []).

(** The same cluster returned twice by the query, as happens when its
    circle lies across a tile boundary. *)
Definition across_tiles : Rendering :=
  mkRendering [] [cluster7; cluster7]
              (fun clusterId => if clusterId =? 7 then Some [oak1; oak2] else None)
              (fun _ => []).

(** Two trees whose species are named by numerals. *)
Definition tree_two : Feature :=
  treeToFeature (mkTree 1 "t2" "arbor secunda" "2" 42 (-71) "ann" true).
Definition tree_one : Feature :=
  treeToFeature (mkTree 2 "t1" "arbor prima" "1" 43 (-72) "ann" true).

Definition numbered : Rendering :=
  mkRendering [tree_two; tree_one] [] (fun _ => None) (fun _ => []).

(** The component with the list panel open and the map showing [r]. *)
Definition viewing (r : Rendering) : AppState :=
  mkApp EmptyString (mkTap (0, 0)%Q 0) three_trees [] None true false None true
        (redraw r (setData three_trees blank_map)).

(** Species [k] selected while the map shows [r]. *)
Definition selecting (k : string) (r : Rendering) : AppState :=
  setHighlightedTree (Some k) (viewing r).

(** A maple submitted next to the two oaks, and the map once it has
    clustered the new data: the three trees are drawn as cluster 8. *)
Definition maple_form : FormState :=
  mkFormState "Maple" (420002 # 10000) (-710002 # 10000) false "acsa" "sapindaceae"
              "acer saccharum" "['ma']" "bob".

Definition maple4 : Feature :=
  treeToFeature (mkTree 4 "acsa" "acer saccharum" "Maple" (420002 # 10000) (-710002 # 10000)
                        "bob" false).

Definition only_oaks : Rendering :=
  mkRendering [] [cluster7]
              (fun clusterId => if clusterId =? 7 then Some [oak1; oak2] else None)
              (fun _ => []).

Definition cluster8 : ClusterProperties := mkCluster 8 3.

Definition with_new_maple : Rendering :=
  mkRendering [] [cluster8]
              (fun clusterId => if clusterId =? 8 then Some [oak1; oak2; maple4] else None)
              (fun _ => []).

(** The component with the remembered tap at pixel (100, 200), time 1000. *)
Definition tapped_once : AppState :=
  set_lastTapRef (mkTap (100, 200)%Q 1000) loaded.

(** The three trees drawn each on its own, the second oak at pixel
    (100, 200), and a double click there. *)
Definition oak2_under_pointer : Rendering :=
  mkRendering [oak1; oak2; maple3] [] (fun _ => None)
              (fun p => if Qeq_bool (fst p) 100 && Qeq_bool (snd p) 200
                        then [Point oak2] else []).

Definition double_click_on_oak2 : MapTouchEvent :=
  mkTouch (100, 200)%Q (-710001 # 10000, 420001 # 10000)%Q.

End Sample.

(** * The rest of the application *)

(** ** Names made of white space *)

(** A string all of whose characters [trimEnd] strips. *)
Fixpoint blank (s : string) : bool :=
  match s with
  | EmptyString => true
  | String a rest => Js.is_space a && blank rest
  end.

(** ** Counting the summary *)

(** How many of the leaves are of species [name]. *)
Definition met_of (name : string) (leaves : list Feature) : nat :=
  length (List.filter (fun leaf => String.eqb (common_name (properties leaf)) name) leaves).

(** The number of members of the group of [name], zero without a group. *)
Definition tally (groups : JsObject.t (list Rendered)) (name : string) : nat :=
  match JsObject.own groups name with
  | Some members => length members
  | None => 0
  end.

(** The member counts of all groups together. *)
Definition total (groups : list (string * list Rendered)) : nat :=
  list_sum (List.map (fun group => length (snd group)) groups).

(** A species whose name is a property of [Object.prototype]. *)
Definition inherited_name (leaf : Feature) : bool :=
  existsb (String.eqb (common_name (properties leaf))) JsObject.Object_prototype.

(** ** [App]: the selection and its effect *)

(** A click on the entry of species [treeName] in the list, followed by the
    commit of the render it causes. *)
Definition click_and_commit (treeName : string) : M unit :=
  val prev <- get;
  do handleTreeListClick treeName;
  useEffect_highlightedTree prev.

(** ** [App]: cancelling *)

Definition handleAddTreeCancel : M unit :=
  do modify (setNewTreeCoordinates None);
  modify (setIsFormVisible false).

(** [key] is [event.key] of the [keydown] event. *)
Definition handleEscapeKey (key : string) : M unit :=
  if String.eqb key "Escape" then
    do closePopup;
    do modify (setNewTreeCoordinates None);
    modify (setIsFormVisible false)
  else ret tt.

(** ** [App]: the list panel *)

Definition setIsTreeListVisible (v : bool) (s : AppState) : AppState :=
  mkApp (sourceNameRef s) (lastTapRef s) (treeLocations s) (visibleTrees s) (highlightedTree s)
        v (isFormVisible s) (newTreeCoordinates s) (layersLoaded s) (mapRef s).

(** The button's [onClick], [() => setIsTreeListVisible(!isTreeListVisible)]. *)
Definition toggle_tree_list : M unit :=
  val st <- get;
  modify (setIsTreeListVisible (negb (isTreeListVisible st))).

(** [useEffect(..., [layersLoaded, isTreeListVisible])] at the commit that
    follows the render of [prev]: when a dependency has changed and the panel
    is now open over loaded layers, [updateVisibleTrees()] runs at once (the
    listeners it also adds and removes are in [on_moveend]). *)
Definition useEffect_isTreeListVisible (prev : AppState) : M unit :=
  val st <- get;
  if decide (layersLoaded prev = layersLoaded st /\ isTreeListVisible prev = isTreeListVisible st)
  then ret tt
  else if layersLoaded st && isTreeListVisible st then updateVisibleTrees
  else ret tt.

Definition toggle_and_commit : M unit :=
  val prev <- get;
  do toggle_tree_list;
  useEffect_isTreeListVisible prev.

(** ** [utils/api.js]: the species table *)

(** A row of [tree_information.csv] as [Papa.parse] returns it with
    [header: true]: every value is a string. *)
Record TreeInfo := mkTreeInfo {
  info_tree_id : string;
  info_common_name : string;
  info_latin_name : string;
  info_family : string;
  info_state_distribution : string;
  info_iucn_red_list_assessment : string;
}.

(** The [reduce] of [fetchTreeInfo]: [accumulator[row.tree_id] = row] for
    each row in turn. (As everywhere, an assignment to the key [__proto__]
    would not create a property; the properties below exclude that key.) *)
Definition fetchTreeInfo (data : list TreeInfo) : JsObject.t TreeInfo :=
  fold_left (fun accumulator row => JsObject.set accumulator (info_tree_id row) row) data [].

(** ** [components/NewTreeForm.jsx] *)

(** [Object.keys(o)] *)
Definition Object_keys {V} (o : JsObject.t V) : list string :=
  List.map fst (JsObject.entries o).

(** [treeNameList]: [Object.keys(treeList).reduce(...)], where [tree] is
    [treeList[tree_id]], the value of the own property [tree_id]. *)
Definition treeNameList (treeList : JsObject.t TreeInfo) : JsObject.t TreeInfo :=
  fold_left (fun accumulator entry =>
               let tree := snd entry in
               JsObject.set accumulator (info_common_name tree) tree)
            (JsObject.entries treeList) [].

(** The comparison of [Array.prototype.sort()] without a comparator, on
    strings: by code units. *)
Definition by_code_units (a b : string) : Z :=
  match String.compare a b with
  | Lt => -1
  | Eq => 0
  | Gt => 1
  end.

(** The [options] handed to the dropdown: [Object.keys(treeNameList).sort()]. *)
Definition species_options (treeList : JsObject.t TreeInfo) : list string :=
  JsArray.sort by_code_units (Object_keys (treeNameList treeList)).

(** [useState({...})] of the form: [coordinates] is the [lngLat] of the tap,
    longitude first. *)
Definition initial_formState (coordinates : Q * Q) (defaultSource : string) : FormState :=
  {| form_common_name := EmptyString;
     form_latitude := snd coordinates;
     form_longitude := fst coordinates;
     form_is_native := false;
     form_tree_id := EmptyString;
     form_family := EmptyString;
     form_latin_name := EmptyString;
     form_state_distribution := EmptyString;
     form_source := defaultSource |}.

(** [handleSelectTree]: the new form state. [None] stands for the state
    whose five species fields are [undefined], which [FormState] cannot hold:
    that is what [treeNameList[treeName] || {}] gives for a name that is not
    a key of the table. *)
Definition handleSelectTree (treeNameList : JsObject.t TreeInfo) (treeName : string)
    (formState : FormState) : option FormState :=
  match JsObject.get treeNameList treeName with
  | JsObject.Own treeData =>
      Some {| form_common_name := info_common_name treeData;
              form_latitude := form_latitude formState;
              form_longitude := form_longitude formState;
              form_is_native := form_is_native formState;
              form_tree_id := info_tree_id treeData;
              form_family := info_family treeData;
              form_latin_name := info_latin_name treeData;
              form_state_distribution := info_state_distribution treeData;
              form_source := form_source formState |}
  | _ => None
  end.

(** [event.target] of a change event. *)
Record Target := mkTarget {
  target_name : string;
  target_value : string;
  target_type : string;
  target_checked : bool;
}.

(** [handleInputChange]: [{...formState, [name]: type === 'checkbox' ?
    checked : value}]. [None] stands for a state [FormState] cannot hold (a
    boolean in a text field, a string in [is_native], a number field
    overwritten by a string, or a new key); the two inputs that call the
    handler, the [source] text and the [is_native] checkbox, never give it. *)
Definition handleInputChange (target : Target) (formState : FormState) : option FormState :=
  let with_text (set : string -> FormState) :=
    if String.eqb (target_type target) "checkbox" then None
    else Some (set (target_value target)) in
  let f := formState in
  if String.eqb (target_name target) "is_native" then
    if String.eqb (target_type target) "checkbox" then
      Some (mkFormState (form_common_name f) (form_latitude f) (form_longitude f)
              (target_checked target) (form_tree_id f) (form_family f) (form_latin_name f)
              (form_state_distribution f) (form_source f))
    else None
  else if String.eqb (target_name target) "source" then
    with_text (fun v => mkFormState (form_common_name f) (form_latitude f) (form_longitude f)
              (form_is_native f) (form_tree_id f) (form_family f) (form_latin_name f)
              (form_state_distribution f) v)
  else if String.eqb (target_name target) "common_name" then
    with_text (fun v => mkFormState v (form_latitude f) (form_longitude f)
              (form_is_native f) (form_tree_id f) (form_family f) (form_latin_name f)
              (form_state_distribution f) (form_source f))
  else if String.eqb (target_name target) "tree_id" then
    with_text (fun v => mkFormState (form_common_name f) (form_latitude f) (form_longitude f)
              (form_is_native f) v (form_family f) (form_latin_name f)
              (form_state_distribution f) (form_source f))
  else if String.eqb (target_name target) "family" then
    with_text (fun v => mkFormState (form_common_name f) (form_latitude f) (form_longitude f)
              (form_is_native f) (form_tree_id f) v (form_latin_name f)
              (form_state_distribution f) (form_source f))
  else if String.eqb (target_name target) "latin_name" then
    with_text (fun v => mkFormState (form_common_name f) (form_latitude f) (form_longitude f)
              (form_is_native f) (form_tree_id f) (form_family f) v
              (form_state_distribution f) (form_source f))
  else if String.eqb (target_name target) "state_distribution" then
    with_text (fun v => mkFormState (form_common_name f) (form_latitude f) (form_longitude f)
              (form_is_native f) (form_tree_id f) (form_family f) (form_latin_name f)
              v (form_source f))
  else None.

(** ** [components/SearchableDropdown.jsx] *)

(** [String.prototype.toLowerCase], for the code points below 128. *)
Definition lower (a : ascii) : ascii :=
  let n := nat_of_ascii a in
  if ((65 <=? n) && (n <=? 90))%nat then ascii_of_nat (n + 32) else a.

Fixpoint toLowerCase (s : string) : string :=
  match s with
  | EmptyString => EmptyString
  | String a rest => String (lower a) (toLowerCase rest)
  end.

(** [hay.includes(needle)] *)
Fixpoint includes (hay needle : string) : bool :=
  if String.prefix needle hay then true
  else match hay with
       | EmptyString => false
       | String _ rest => includes rest needle
       end.

Definition filteredOptions (options : list string) (searchTerm : string) : list string :=
  List.filter (fun option => includes (toLowerCase option) (toLowerCase searchTerm)) options.

(** ** [formatStateDistribution] *)

(** The characters of the class [[[\]']]: the two square brackets and the
    single quote. *)
Definition bracket_or_quote (a : ascii) : bool :=
  let n := nat_of_ascii a in
  ((n =? 91) || (n =? 93) || (n =? 39))%nat.

(** [s.replace(/[[\]']/g, '')] *)
Fixpoint without_brackets (s : string) : string :=
  match s with
  | EmptyString => EmptyString
  | String a rest =>
      if bracket_or_quote a then without_brackets rest else String a (without_brackets rest)
  end.

(** [s.split(sep)] for a separator of one character: always at least one
    piece. *)
Fixpoint split (sep : ascii) (s : string) : list string :=
  match s with
  | EmptyString => [EmptyString]
  | String a rest =>
      if Ascii.eqb a sep then EmptyString :: split sep rest
      else match split sep rest with
           | piece :: pieces => String a piece :: pieces
           | [] => [String a EmptyString]
           end
  end.

Fixpoint trimStart (s : string) : string :=
  match s with
  | EmptyString => EmptyString
  | String a rest => if Js.is_space a then trimStart rest else s
  end.

(** [s.trim()], for the code points below 128. *)
Definition trim (s : string) : string := trimStart (Js.trimEnd s).

(** [String.prototype.toUpperCase], for the code points below 128. *)
Definition upper (a : ascii) : ascii :=
  let n := nat_of_ascii a in
  if ((97 <=? n) && (n <=? 122))%nat then ascii_of_nat (n - 32) else a.

Fixpoint toUpperCase (s : string) : string :=
  match s with
  | EmptyString => EmptyString
  | String a rest => String (upper a) (toUpperCase rest)
  end.

Definition formatStateDistribution (states : string) : string :=
  String.concat ", "
    (List.map (fun state => toUpperCase (trim state))
              (split "," (without_brackets states))).

(** Every character of [s] passes [p]. *)
Fixpoint every (p : ascii -> bool) (s : string) : bool :=
  match s with
  | EmptyString => true
  | String a rest => p a && every p rest
  end.

Definition lower_case_letter (a : ascii) : bool :=
  let n := nat_of_ascii a in
  ((97 <=? n) && (n <=? 122))%nat.

(** ** More sample data *)

Module Cases.

(** A cluster whose leaves the map cannot give. *)
Definition lost_cluster : Rendering :=
  mkRendering [Sample.maple3] [Sample.cluster7] (fun _ => None) (fun _ => []).

(** The first oak returned twice by the query for trees, as happens across
    a tile boundary. *)
Definition oak_twice : list Feature := [Sample.oak1; Sample.maple3; Sample.oak1].

(** A species table in which the red oak is listed twice. *)
Definition red_oak_old : TreeInfo :=
  mkTreeInfo "quru" "Oak" "quercus borealis" "fagaceae" "['ma']" "least concern".
Definition red_oak : TreeInfo :=
  mkTreeInfo "quru" "Oak" "quercus rubra" "fagaceae" "['ma', 'nh']" "least concern".
Definition sugar_maple : TreeInfo :=
  mkTreeInfo "acsa" "Maple" "acer saccharum" "sapindaceae" "['ma', 'vt']" "least concern".

Definition table : list TreeInfo := [red_oak_old; sugar_maple; red_oak].

End Cases.

(** * Properties *)

(** ** The monad *)

Lemma bind_returned {A B} (m : M A) (k : A -> M B) s a s1 log1 :
  m s = (Returned a, s1, log1) ->
  bind m k s = (let '(o, s2, log2) := k a s1 in (o, s2, log1 ++ log2)).
Proof. intros E. unfold bind. rewrite E. reflexivity. Qed.

Lemma bind_thrown {A B} (m : M A) (k : A -> M B) s e s1 log1 :
  m s = (Thrown e, s1, log1) -> bind m k s = (Thrown e, s1, log1).
Proof. intros E. unfold bind. rewrite E. reflexivity. Qed.

Ltac run_handler :=
  unfold bind, try_catch, get, modify, perform, ret, throw, Promise.await,
    state_after, outcome_of, effects_of; simpl.

(** ** The two writes of [utils/api.js] *)

Lemma fetch_json_failed {A} request (answer : Response A) s :
  failed answer -> exists e, fetch_json request answer s = (Thrown e, s, [request]).
Proof. destruct answer; simpl; [tauto | eauto | eauto]. Qed.

Lemma sendAddLocation_failed backend body s :
  failed (POST_trees backend body) ->
  exists e, sendAddLocation backend body s
            = (Thrown e, s, [fetch_POST_trees body; console_error "Error adding new tree:"]).
Proof.
  intros F. destruct (fetch_json_failed (fetch_POST_trees body) _ s F) as [e E].
  exists e. unfold sendAddLocation, try_catch. rewrite E. reflexivity.
Qed.

Lemma sendAddLocation_ok backend body tree s :
  POST_trees backend body = Ok2xx tree ->
  sendAddLocation backend body s = (Returned tree, s, [fetch_POST_trees body]).
Proof. intros E. unfold sendAddLocation, fetch_json. rewrite E. reflexivity. Qed.

Lemma sendRemoveLocation_failed backend locationId removedBy s :
  failed (PUT_trees_remove backend locationId removedBy) ->
  exists e, sendRemoveLocation backend locationId removedBy s
            = (Thrown e, s, [fetch_PUT_trees_remove locationId removedBy;
                             console_error "Error removing tree with location_id"]).
Proof.
  intros F.
  destruct (fetch_json_failed (fetch_PUT_trees_remove locationId removedBy) _ s F) as [e E].
  exists e. unfold sendRemoveLocation, try_catch. rewrite E. reflexivity.
Qed.

Lemma sendRemoveLocation_ok backend locationId removedBy s :
  PUT_trees_remove backend locationId removedBy = Ok2xx tt ->
  sendRemoveLocation backend locationId removedBy s
  = (Returned tt, s, [fetch_PUT_trees_remove locationId removedBy]).
Proof. intros E. unfold sendRemoveLocation, fetch_json. rewrite E. reflexivity. Qed.

(** ** Add and remove: a failed remote call *)

Lemma handleAddTreeSubmit_failed backend newTree st :
  failed (POST_trees backend (sent_for newTree)) ->
  handleAddTreeSubmit backend newTree st
  = (Returned tt, set_sourceNameRef (form_source newTree) st,
     [fetch_POST_trees (sent_for newTree); console_error "Error adding new tree:";
      console_error "Error adding new tree:"]).
Proof.
  intros F.
  destruct (sendAddLocation_failed backend (sent_for newTree)
              (set_sourceNameRef (form_source newTree) st) F) as [e E].
  unfold handleAddTreeSubmit. run_handler. rewrite E. reflexivity.
Qed.

Lemma handleAddTreeSubmit_ok backend newTree addedTree st :
  POST_trees backend (sent_for newTree) = Ok2xx addedTree ->
  handleAddTreeSubmit backend newTree st
  = (Returned tt,
     setIsFormVisible false
       (setTreeLocations
          {| collection_type := collection_type (treeLocations st);
             features := features (treeLocations st) ++ [treeToFeature addedTree] |}
          (set_sourceNameRef (form_source newTree) st)),
     [fetch_POST_trees (sent_for newTree)]).
Proof.
  intros E. unfold handleAddTreeSubmit. run_handler.
  rewrite (sendAddLocation_ok _ _ addedTree _ E). reflexivity.
Qed.

Lemma removeTree_of_declined captured backend answer locationId st :
  confirmed_by answer = None ->
  removeTree_of captured backend answer locationId st
  = (Returned tt, st,
     [window_prompt "Please enter your name to confirm removal:" (sourceNameRef st)]).
Proof.
  unfold confirmed_by, removeTree_of. intros E. run_handler.
  destruct answer as [removedBy|]; [|reflexivity].
  destruct (Js.truthy removedBy); [discriminate | reflexivity].
Qed.

Lemma removeTree_of_failed captured backend answer removedBy locationId st :
  confirmed_by answer = Some removedBy ->
  failed (PUT_trees_remove backend locationId removedBy) ->
  exists e,
    removeTree_of captured backend answer locationId st
    = (Thrown e, set_sourceNameRef removedBy st,
       [window_prompt "Please enter your name to confirm removal:" (sourceNameRef st);
        fetch_PUT_trees_remove locationId removedBy;
        console_error "Error removing tree with location_id"]).
Proof.
  unfold confirmed_by. intros C F.
  destruct answer as [typed|]; [|discriminate].
  destruct (Js.truthy typed) eqn:T; [|discriminate].
  injection C as <-.
  destruct (sendRemoveLocation_failed backend locationId (Js.trimEnd typed)
              (set_sourceNameRef (Js.trimEnd typed) st) F) as [e E].
  exists e. unfold removeTree_of. run_handler. rewrite T. simpl. rewrite E. reflexivity.
Qed.

Lemma removeTree_of_ok captured backend answer removedBy locationId st :
  confirmed_by answer = Some removedBy ->
  PUT_trees_remove backend locationId removedBy = Ok2xx tt ->
  removeTree_of captured backend answer locationId st
  = (Returned tt,
     setTreeLocations
       {| collection_type := collection_type captured;
          features := filter (other_than locationId) (features captured) |}
       (set_sourceNameRef removedBy st),
     [window_prompt "Please enter your name to confirm removal:" (sourceNameRef st);
      fetch_PUT_trees_remove locationId removedBy]).
Proof.
  unfold confirmed_by. intros C E.
  destruct answer as [typed|]; [|discriminate].
  destruct (Js.truthy typed) eqn:T; [|discriminate].
  injection C as <-.
  unfold removeTree_of. run_handler. rewrite T. simpl.
  rewrite (sendRemoveLocation_ok _ _ _ _ E). reflexivity.
Qed.

Lemma removeTree_current backend answer locationId st :
  removeTree backend answer locationId st
  = removeTree_of (treeLocations st) backend answer locationId st.
Proof.
  unfold removeTree, bind, get.
  destruct (removeTree_of (treeLocations st) backend answer locationId st) as [[o s] log].
  reflexivity.
Qed.

Lemma removeTree_declined backend answer locationId st :
  confirmed_by answer = None ->
  removeTree backend answer locationId st
  = (Returned tt, st,
     [window_prompt "Please enter your name to confirm removal:" (sourceNameRef st)]).
Proof. rewrite removeTree_current. apply removeTree_of_declined. Qed.

Lemma removeTree_failed backend answer removedBy locationId st :
  confirmed_by answer = Some removedBy ->
  failed (PUT_trees_remove backend locationId removedBy) ->
  exists e,
    removeTree backend answer locationId st
    = (Thrown e, set_sourceNameRef removedBy st,
       [window_prompt "Please enter your name to confirm removal:" (sourceNameRef st);
        fetch_PUT_trees_remove locationId removedBy;
        console_error "Error removing tree with location_id"]).
Proof. rewrite removeTree_current. apply removeTree_of_failed. Qed.

Lemma removeTree_ok backend answer removedBy locationId st :
  confirmed_by answer = Some removedBy ->
  PUT_trees_remove backend locationId removedBy = Ok2xx tt ->
  removeTree backend answer locationId st
  = (Returned tt,
     setTreeLocations
       {| collection_type := collection_type (treeLocations st);
          features := filter (other_than locationId) (features (treeLocations st)) |}
       (set_sourceNameRef removedBy st),
     [window_prompt "Please enter your name to confirm removal:" (sourceNameRef st);
      fetch_PUT_trees_remove locationId removedBy]).
Proof. rewrite removeTree_current. apply removeTree_of_ok. Qed.

(** C1. When the remote call of an add or of a remove fails (a response that
    is not ok, or no response), [treeLocations] is afterwards what it was
    before: the add has appended nothing and the remove has taken nothing
    out. *)
Theorem failed_write_leaves_store backend st :
  (forall newTree,
     failed (POST_trees backend (sent_for newTree)) ->
     treeLocations (state_after (handleAddTreeSubmit backend newTree st)) = treeLocations st)
  /\
  (forall answer removedBy locationId,
     confirmed_by answer = Some removedBy ->
     failed (PUT_trees_remove backend locationId removedBy) ->
     treeLocations (state_after (removeTree backend answer locationId st)) = treeLocations st).
Proof.
  split.
  - intros newTree F. rewrite (handleAddTreeSubmit_failed _ _ _ F). reflexivity.
  - intros answer removedBy locationId C F.
    destruct (removeTree_failed _ _ _ _ st C F) as [e ->]. reflexivity.
Qed.

Lemma failed_write_leaves_store_witness :
  treeLocations (state_after (handleAddTreeSubmit Sample.refusing Sample.oak_form Sample.loaded))
  = Sample.three_trees
  /\ treeLocations (state_after (removeTree Sample.refusing (Some "ann") 2 Sample.loaded))
     = Sample.three_trees.
Proof.
  split.
  - apply (proj1 (failed_write_leaves_store Sample.refusing Sample.loaded) Sample.oak_form).
    exact I.
  - apply (proj2 (failed_write_leaves_store Sample.refusing Sample.loaded) (Some "ann") "ann" 2).
    + reflexivity.
    + exact I.
Defined.

(** ** Remove: what a successful removal does to the store *)

Lemma removeTree_ok_features backend answer removedBy locationId st :
  confirmed_by answer = Some removedBy ->
  PUT_trees_remove backend locationId removedBy = Ok2xx tt ->
  features (treeLocations (state_after (removeTree backend answer locationId st)))
  = filter (other_than locationId) (features (treeLocations st)).
Proof. intros C E. rewrite (removeTree_ok _ _ _ _ st C E). reflexivity. Qed.

(** C2, as the code has it. A successful removal deletes the feature from
    [treeLocations]: afterwards no feature of the store has the removed
    [location_id] (features carry no [active] flag, and nothing of the removed
    one is kept), and once the data-change effect has run the map's source
    data, from which it clusters and draws, has none either. *)
Theorem removeTree_deletes backend answer removedBy locationId st :
  confirmed_by answer = Some removedBy ->
  PUT_trees_remove backend locationId removedBy = Ok2xx tt ->
  let after := state_after (removeTree backend answer locationId st) in
  Forall (other_than locationId) (features (treeLocations after))
  /\ (layersLoaded st = true ->
      Forall (other_than locationId)
             (features (source_data (mapRef (state_after (useEffect_treeLocations after)))))).
Proof.
  intros C E after.
  assert (F : Forall (other_than locationId) (features (treeLocations after))).
  { subst after. rewrite (removeTree_ok_features _ _ _ _ st C E).
    apply Forall_forall. intros f Hf.
    apply list_elem_of_filter in Hf. exact (proj1 Hf). }
  split; [exact F|]. intros L.
  assert (L' : layersLoaded after = true).
  { subst after. rewrite (removeTree_ok _ _ _ _ st C E). exact L. }
  unfold useEffect_treeLocations, bind, get. rewrite L'. exact F.
Qed.

Lemma removeTree_deletes_witness :
  Forall (other_than 2)
         (features (treeLocations
            (state_after (removeTree Sample.accepting (Some "ann") 2 Sample.loaded)))).
Proof.
  exact (proj1 (removeTree_deletes Sample.accepting (Some "ann") "ann" 2 Sample.loaded
                  eq_refl eq_refl)).
Defined.

(** C2 as stated fails: after the successful removal of tree 2 the store
    holds the two other trees and tree 2 is no longer in it. *)
Lemma removeTree_keeps_nothing :
  features (treeLocations
     (state_after (removeTree Sample.accepting (Some "ann") 2 Sample.loaded)))
  = [Sample.oak1; Sample.maple3]
  /\ ~ In Sample.oak2
       (features (treeLocations
          (state_after (removeTree Sample.accepting (Some "ann") 2 Sample.loaded)))).
Proof.
  assert (E : features (treeLocations
     (state_after (removeTree Sample.accepting (Some "ann") 2 Sample.loaded)))
     = [Sample.oak1; Sample.maple3]) by reflexivity.
  split; [exact E|]. rewrite E. simpl. intros [H | [H | []]]; discriminate H.
Qed.

(** What a successful removal leaves is the store its closure holds, less
    the features with the removed [location_id]: the collection's [type] is
    that store's, its other features are there in the same order, every
    feature left was in it, and the list is shorter than its list by the
    number of features that had that id. The store as it is when the removal
    runs does not enter. *)
Lemma removeTree_of_frame captured backend answer removedBy locationId st :
  confirmed_by answer = Some removedBy ->
  PUT_trees_remove backend locationId removedBy = Ok2xx tt ->
  let after :=
    treeLocations (state_after (removeTree_of captured backend answer locationId st)) in
  collection_type after = collection_type captured
  /\ features after = filter (other_than locationId) (features captured)
  /\ (forall feature, other_than locationId feature ->
        (In feature (features captured) <-> In feature (features after)))
  /\ (forall feature, In feature (features after) ->
        In feature (features captured) /\ other_than locationId feature)
  /\ length (features captured)
     = (length (features after)
        + length (filter (fun feature => location_id (properties feature) = locationId)
                         (features captured)))%nat.
Proof.
  intros C E after. subst after. rewrite (removeTree_of_ok captured _ _ _ _ st C E).
  unfold state_after. simpl.
  split; [reflexivity|]. split; [reflexivity|].
  generalize (features captured) as l. intros l.
  split; [|split].
  - intros f Hf. rewrite <- !list_elem_of_In, list_elem_of_filter. tauto.
  - intros f Hf. rewrite <- list_elem_of_In in Hf. apply list_elem_of_filter in Hf.
    rewrite <- list_elem_of_In. tauto.
  - induction l as [|f l IH]; [reflexivity|].
    rewrite !filter_cons. unfold other_than at 1.
    destruct (decide (location_id (properties f) = locationId)) as [H|H].
    + rewrite decide_False by (intros N; exact (N H)). simpl. lia.
    + rewrite decide_True by exact H. simpl. lia.
Qed.

Lemma handlePopupButtonClose_ok backend answer removedBy button st :
  confirmed_by answer = Some removedBy ->
  PUT_trees_remove backend (button_location_id button) removedBy = Ok2xx tt ->
  handlePopupButtonClose backend answer button st
  = (Returned tt,
     setTreeLocations
       {| collection_type := collection_type (button_treeLocations button);
          features := filter (other_than (button_location_id button))
                             (features (button_treeLocations button)) |}
       (set_sourceNameRef removedBy st),
     [preventDefault;
      window_prompt "Please enter your name to confirm removal:" (sourceNameRef st);
      fetch_PUT_trees_remove (button_location_id button) removedBy]).
Proof.
  intros C E. unfold handlePopupButtonClose, bind, perform.
  rewrite (removeTree_of_ok _ _ _ _ _ st C E). reflexivity.
Qed.

(** C10 fails on the code. The second oak is double-clicked: its popup is
    shown, with the button holding the store of trees 1, 2 and 3, and the form
    opens. A maple is added through the form and the store holds trees 1, 2,
    3 and 4. The popup's button is then clicked, the removal of tree 2 is
    confirmed and the server accepts it: the store is left with trees 1 and
    3. Tree 4, whose [location_id] is not 2, was in the store before the
    removal and is not in it afterwards. *)
Theorem stale_popup_removal_loses_added_tree :
  let opened :=
    add_under_open_popup Sample.accepting Sample.oak2 Sample.double_click_on_oak2
      Sample.maple_form Sample.with_new_maple (Sample.viewing Sample.oak2_under_pointer) in
  let button := mkPopupButton 2 Sample.three_trees in
  let before := state_after opened in
  let removal := handlePopupButtonClose Sample.accepting (Some "ann") button before in
  outcome_of opened = Returned button
  /\ features (treeLocations before)
     = [Sample.oak1; Sample.oak2; Sample.maple3; Sample.maple4]
  /\ outcome_of removal = Returned tt
  /\ In (fetch_PUT_trees_remove 2 "ann") (effects_of removal)
  /\ other_than 2 Sample.maple4
  /\ features (treeLocations (state_after removal)) = [Sample.oak1; Sample.maple3]
  /\ ~ In Sample.maple4 (features (treeLocations (state_after removal))).
Proof.
  intros opened button before removal.
  assert (R : removal
              = (Returned tt,
                 setTreeLocations
                   {| collection_type := "FeatureCollection";
                      features := [Sample.oak1; Sample.maple3] |}
                   (set_sourceNameRef "ann" before),
                 [preventDefault;
                  window_prompt "Please enter your name to confirm removal:" "bob";
                  fetch_PUT_trees_remove 2 "ann"])).
  { exact (handlePopupButtonClose_ok Sample.accepting (Some "ann") "ann" button before
             eq_refl eq_refl). }
  split; [reflexivity|]. split; [reflexivity|]. rewrite R.
  split; [reflexivity|]. split; [simpl; tauto|].
  split; [unfold other_than; simpl; lia|]. split; [reflexivity|].
  simpl. intros [H | [H | []]]; discriminate H.
Qed.

(** ** Select: the toggle *)

Lemma handleTreeListClick_spec k st :
  handleTreeListClick k st
  = (Returned tt,
     setHighlightedTree (if decide (Some k = highlightedTree st) then None else Some k) st,
     []).
Proof. reflexivity. Qed.

Lemma select_same k st :
  highlightedTree st = Some k -> highlightedTree (select k st) = None.
Proof.
  intros E. unfold select. rewrite handleTreeListClick_spec. simpl.
  rewrite decide_True by (symmetry; exact E). reflexivity.
Qed.

Lemma select_other k st :
  highlightedTree st <> Some k -> highlightedTree (select k st) = Some k.
Proof.
  intros N. unfold select. rewrite handleTreeListClick_spec. simpl.
  rewrite decide_False by (intros E; apply N; symmetry; exact E). reflexivity.
Qed.

(** C3, as the code has it. A click on species [k] clears the selection when
    it is [k] and sets it to [k] otherwise; hence two clicks on [k] in a row
    leave no selection when the selection was not [k] to begin with, and
    leave [k] selected when it was. *)
Theorem select_toggles k st :
  highlightedTree (select k st)
  = (if decide (highlightedTree st = Some k) then None else Some k)
  /\ highlightedTree (select k (select k st))
     = (if decide (highlightedTree st = Some k) then Some k else None).
Proof.
  destruct (decide (highlightedTree st = Some k)) as [E|N].
  - pose proof (select_same k st E) as E1. split; [exact E1|].
    apply select_other. rewrite E1. discriminate.
  - pose proof (select_other k st N) as E1. split; [exact E1|].
    apply select_same. exact E1.
Qed.

(** C3 as stated fails when the species is already selected: two clicks on
    Oak while Oak is selected end with Oak selected, not with no selection. *)
Lemma select_twice_when_selected :
  highlightedTree (select "Oak" (select "Oak" (setHighlightedTree (Some "Oak") Sample.loaded)))
  = Some "Oak"
  /\ highlightedTree (select "Oak" (select "Oak" (setHighlightedTree (Some "Oak") Sample.loaded)))
     <> None.
Proof. split; [reflexivity | discriminate]. Qed.

(** ** The form: required fields *)

Lemma truthy_nonempty s : Js.truthy s = true <-> s <> EmptyString.
Proof. destruct s; simpl; split; congruence. Qed.

(** C4. [handleSubmit] of the form, wired to [handleAddTreeSubmit] as [App]
    wires it: when the species or the source is empty it alerts and does
    nothing else, the state is untouched and no request is sent; a
    [POST /trees] is sent exactly when both are non-empty. *)
Theorem handleSubmit_validates backend formState st :
  let submitted := handleSubmit (Some (handleAddTreeSubmit backend)) formState st in
  (form_common_name formState = EmptyString \/ form_source formState = EmptyString ->
     effects_of submitted = [preventDefault; window_alert "Please fill out all required fields."]
     /\ state_after submitted = st)
  /\ ((exists body, In (fetch_POST_trees body) (effects_of submitted))
      <-> form_common_name formState <> EmptyString /\ form_source formState <> EmptyString).
Proof.
  intros submitted. subst submitted. unfold handleSubmit.
  rewrite <- !truthy_nonempty.
  destruct (Js.truthy (form_common_name formState)) eqn:Tc;
    destruct (Js.truthy (form_source formState)) eqn:Ts;
    apply truthy_nonempty in Tc || (apply not_true_iff_false in Tc; rewrite truthy_nonempty in Tc);
    apply truthy_nonempty in Ts || (apply not_true_iff_false in Ts; rewrite truthy_nonempty in Ts).
  - (* both filled in: the request is sent *)
    split; [intros [E|E]; congruence|].
    split; [tauto|]. intros _. exists (sent_for formState).
    unfold bind, perform. simpl.
    destruct (POST_trees backend (sent_for formState)) as [tree| |] eqn:P.
    + rewrite (handleAddTreeSubmit_ok _ _ tree _ P). simpl. tauto.
    + rewrite handleAddTreeSubmit_failed by (rewrite P; exact I). simpl. tauto.
    + rewrite handleAddTreeSubmit_failed by (rewrite P; exact I). simpl. tauto.
  - split; [intros _; split; reflexivity|].
    split; [|intros [_ F]; congruence].
    intros (body & [H|[H|[]]]); discriminate H.
  - split; [intros _; split; reflexivity|].
    split; [|intros [F _]; congruence].
    intros (body & [H|[H|[]]]); discriminate H.
  - split; [intros _; split; reflexivity|].
    split; [|intros [F _]; congruence].
    intros (body & [H|[H|[]]]); discriminate H.
Qed.

Lemma handleSubmit_validates_witness :
  effects_of (handleSubmit (Some (handleAddTreeSubmit Sample.accepting))
     (mkFormState "Oak" 42 (-71) true "quru" "fagaceae" "quercus rubra" "ma" EmptyString)
     Sample.loaded)
  = [preventDefault; window_alert "Please fill out all required fields."]
  /\ exists body, In (fetch_POST_trees body)
       (effects_of (handleSubmit (Some (handleAddTreeSubmit Sample.accepting))
          Sample.oak_form Sample.loaded)).
Proof.
  split.
  - apply (proj1 (handleSubmit_validates Sample.accepting
       (mkFormState "Oak" 42 (-71) true "quru" "fagaceae" "quercus rubra" "ma" EmptyString)
       Sample.loaded)).
    right. reflexivity.
  - apply (proj2 (handleSubmit_validates Sample.accepting Sample.oak_form Sample.loaded)).
    split; discriminate.
Defined.

(** ** Taps: the double tap that opens the form *)

Lemma isSameLocation_within point1 point2 :
  isSameLocation point1 point2 = true
  <-> (-(10) <= fst point1 - fst point2 <= 10)%Q /\ (-(10) <= snd point1 - snd point2 <= 10)%Q.
Proof.
  unfold isSameLocation. cbv zeta.
  rewrite andb_true_iff, !Qle_bool_iff, !Qabs_Qle_condition. reflexivity.
Qed.

Lemma double_tap_test last currentTime currentPoint :
  ((currentTime - tap_time last <? 200) && (currentTime - tap_time last >? 0))
    && isSameLocation currentPoint (tap_point last) = true
  <-> double_tap last currentTime currentPoint.
Proof.
  unfold double_tap.
  rewrite !andb_true_iff, isSameLocation_within, Z.ltb_lt, Z.gtb_gt.
  split.
  - intros [[Hlt Hgt] Hnear]. split; [split; [apply Z.gt_lt; exact Hgt | exact Hlt] | exact Hnear].
  - intros [[Hgt Hlt] Hnear]. split; [split; [exact Hlt | apply Z.lt_gt; exact Hgt] | exact Hnear].
Qed.

Lemma handleMapTouch_on_feature currentTime event st :
  clickedOnFeature (mapRef st) (point event) = true ->
  handleMapTouch currentTime event st = (Returned tt, st, []).
Proof. intros C. unfold handleMapTouch. run_handler. rewrite C. reflexivity. Qed.

Lemma handleMapTouch_double currentTime event st :
  clickedOnFeature (mapRef st) (point event) = false ->
  double_tap (lastTapRef st) currentTime (point event) ->
  handleMapTouch currentTime event st
  = (Returned tt,
     setIsFormVisible true
       (setNewTreeCoordinates (Some (lngLat event))
          (set_mapRef (popup_remove (mapRef st)) st)),
     [preventDefault]).
Proof.
  intros C D. apply double_tap_test in D.
  unfold handleMapTouch, closePopup, handleDoubleTouch. run_handler. rewrite C. simpl.
  rewrite D. reflexivity.
Qed.

Lemma handleMapTouch_single currentTime event st :
  clickedOnFeature (mapRef st) (point event) = false ->
  ~ double_tap (lastTapRef st) currentTime (point event) ->
  handleMapTouch currentTime event st
  = (Returned tt,
     set_lastTapRef {| tap_point := point event; tap_time := currentTime |}
       (set_mapRef (popup_remove (mapRef st)) st),
     []).
Proof.
  intros C D. rewrite <- double_tap_test in D. apply not_true_is_false in D.
  unfold handleMapTouch, closePopup, handleDoubleTouch. run_handler. rewrite C. simpl.
  rewrite D. reflexivity.
Qed.

(** C8. A tap that lands on a tree or a cluster changes nothing. A tap on
    empty map that comes less than 200 ms after the remembered tap and within
    10 pixels of it in x and in y opens the form at the tap's coordinates.
    Any other tap on empty map opens nothing and becomes the remembered
    tap. *)
Theorem handleMapTouch_gesture currentTime event st :
  let after := state_after (handleMapTouch currentTime event st) in
  (clickedOnFeature (mapRef st) (point event) = true -> after = st)
  /\ (clickedOnFeature (mapRef st) (point event) = false ->
      double_tap (lastTapRef st) currentTime (point event) ->
      isFormVisible after = true
      /\ newTreeCoordinates after = Some (lngLat event)
      /\ lastTapRef after = lastTapRef st)
  /\ (clickedOnFeature (mapRef st) (point event) = false ->
      ~ double_tap (lastTapRef st) currentTime (point event) ->
      isFormVisible after = isFormVisible st
      /\ newTreeCoordinates after = newTreeCoordinates st
      /\ lastTapRef after = {| tap_point := point event; tap_time := currentTime |}).
Proof.
  intros after. subst after. split; [|split].
  - intros C. rewrite (handleMapTouch_on_feature _ _ _ C). reflexivity.
  - intros C D. rewrite (handleMapTouch_double _ _ _ C D). simpl. tauto.
  - intros C D. rewrite (handleMapTouch_single _ _ _ C D). simpl. tauto.
Qed.

Lemma handleMapTouch_gesture_witness :
  (isFormVisible (state_after
     (handleMapTouch 1150 (mkTouch (105, 197)%Q (-71, 42)%Q) Sample.tapped_once)) = true
   /\ newTreeCoordinates (state_after
        (handleMapTouch 1150 (mkTouch (105, 197)%Q (-71, 42)%Q) Sample.tapped_once))
      = Some (-71, 42)%Q)
  /\ (isFormVisible (state_after
        (handleMapTouch 1300 (mkTouch (105, 197)%Q (-71, 42)%Q) Sample.tapped_once)) = false
      /\ lastTapRef (state_after
           (handleMapTouch 1300 (mkTouch (105, 197)%Q (-71, 42)%Q) Sample.tapped_once))
         = mkTap (105, 197)%Q 1300).
Proof.
  split.
  - destruct (proj1 (proj2 (handleMapTouch_gesture 1150
                (mkTouch (105, 197)%Q (-71, 42)%Q) Sample.tapped_once)))
      as (F & N & _).
    + reflexivity.
    + unfold double_tap. simpl. repeat split; try lia; apply Qle_bool_iff; reflexivity.
    + split; [exact F | exact N].
  - destruct (proj2 (proj2 (handleMapTouch_gesture 1300
                (mkTouch (105, 197)%Q (-71, 42)%Q) Sample.tapped_once)))
      as (F & _ & L).
    + reflexivity.
    + unfold double_tap. simpl. lia.
    + split; [exact F | exact L].
Defined.

(** ** The debounced summary: one recompute for a burst *)

Lemma redraw_redraw r r' m : redraw r (redraw r' m) = redraw r m.
Proof. reflexivity. Qed.

Lemma last_cons_default {A} (l : list A) : forall a d, List.last (a :: l) d = List.last l a.
Proof.
  induction l as [|b l IH]; intros a d; [reflexivity|].
  change (List.last (a :: b :: l) d) with (List.last (b :: l) d).
  rewrite (IH b d), (IH b a). reflexivity.
Qed.

(** What a burst leaves behind before its timer runs: nothing recomputed,
    the map as the last event drew it, and the timer set 300 ms after the last
    event. *)
Lemma burst_pending events : forall first v,
  layersLoaded (app v) = true ->
  isTreeListVisible (app v) = true ->
  Debounce.wait (debouncedUpdateVisibleTrees v) = 300 ->
  Debounce.due (at_time first) (debouncedUpdateVisibleTrees v) = false ->
  burst 300 (first :: events) ->
  let last := List.last events first in
  fold_left on_moveend (first :: events) v
  = {| app := set_mapRef (redraw (drawn last) (mapRef (app v))) (app v);
       debouncedUpdateVisibleTrees := Debounce.mk 300 (Some (at_time last + 300));
       recomputes := recomputes v |}.
Proof.
  induction events as [|second events IH]; intros first v L V W D B.
  - simpl. unfold on_moveend, advance_to. rewrite D. simpl. rewrite L, V. simpl.
    unfold Debounce.call. rewrite W. reflexivity.
  - change (fold_left on_moveend (first :: second :: events) v)
      with (fold_left on_moveend (second :: events) (on_moveend v first)).
    destruct B as (Hle & Hlt & B).
    assert (E : on_moveend v first
                = {| app := set_mapRef (redraw (drawn first) (mapRef (app v))) (app v);
                     debouncedUpdateVisibleTrees := Debounce.mk 300 (Some (at_time first + 300));
                     recomputes := recomputes v |}).
    { unfold on_moveend, advance_to. rewrite D. simpl. rewrite L, V. simpl.
      unfold Debounce.call. rewrite W. reflexivity. }
    rewrite E. rewrite IH.
    + cbv zeta. rewrite last_cons_default. reflexivity.
    + exact L.
    + exact V.
    + reflexivity.
    + unfold Debounce.due. simpl. apply Z.leb_gt. lia.
    + exact B.
Qed.

(** C9. With the list panel open, a burst of map events in which each event
    comes less than 300 ms after the previous one makes the summary recompute
    exactly once, 300 ms after the last event, on the map as the last event
    left it; the result is the summary of that last view. *)
Theorem burst_recomputes_once events final st :
  layersLoaded st = true ->
  isTreeListVisible st = true ->
  burst 300 (events ++ [final]) ->
  let settled := set_mapRef (redraw (drawn final) (mapRef st)) st in
  recomputes (after_events (events ++ [final]) (mounted st))
  = [(at_time final + 300, mapRef settled)]
  /\ app (after_events (events ++ [final]) (mounted st))
     = state_after (updateVisibleTrees settled).
Proof.
  intros L V B settled.
  assert (exists first rest, events ++ [final] = first :: rest /\ List.last rest first = final)
    as (first & rest & E & Hlast).
  { destruct events as [|first events].
    - exists final, []. split; reflexivity.
    - exists first, (events ++ [final]). split; [reflexivity|]. apply last_last. }
  unfold after_events. rewrite E in *.
  rewrite (burst_pending rest first (mounted st) L V eq_refl eq_refl B).
  cbv zeta. rewrite Hlast. unfold timer_fires. simpl. split; reflexivity.
Qed.

(** ** [Array.prototype.sort] *)

Section Sort.

Context {A : Type} (compare : A -> A -> Z).

Lemma insert_Permutation x l : Permutation (JsArray.insert compare x l) (x :: l).
Proof.
  induction l as [|y l IH]; simpl; [reflexivity|].
  destruct (compare x y <=? 0); [reflexivity|].
  rewrite IH. apply perm_swap.
Qed.

Lemma sort_Permutation l : Permutation (JsArray.sort compare l) l.
Proof.
  induction l as [|x l IH]; simpl; [reflexivity|].
  rewrite insert_Permutation. apply perm_skip. exact IH.
Qed.

(** Stability: elements that [compare] never separates keep their order. *)
Lemma insert_filter (keep : A -> bool) x l :
  (forall y, keep x = true -> keep y = true -> compare x y <= 0) ->
  List.filter keep (JsArray.insert compare x l)
  = if keep x then x :: List.filter keep l else List.filter keep l.
Proof.
  intros T. induction l as [|y l IH]; simpl; [reflexivity|].
  destruct (compare x y <=? 0) eqn:C; simpl.
  - reflexivity.
  - rewrite IH. destruct (keep x) eqn:Kx; [|reflexivity].
    destruct (keep y) eqn:Ky; [|reflexivity].
    apply Z.leb_gt in C. specialize (T y eq_refl Ky). lia.
Qed.

Lemma sort_filter (keep : A -> bool) l :
  (forall x y, keep x = true -> keep y = true -> compare x y <= 0) ->
  List.filter keep (JsArray.sort compare l) = List.filter keep l.
Proof.
  intros T. induction l as [|x l IH]; simpl; [reflexivity|].
  rewrite insert_filter by (intros y; apply T). rewrite IH. reflexivity.
Qed.

Hypothesis compare_total : forall x y, compare x y <= 0 \/ compare y x <= 0.
Hypothesis compare_trans : forall x y z,
  compare x y <= 0 -> compare y z <= 0 -> compare x z <= 0.

Lemma insert_sorted x l :
  StronglySorted (fun a b => compare a b <= 0) l ->
  StronglySorted (fun a b => compare a b <= 0) (JsArray.insert compare x l).
Proof.
  induction 1 as [|y l S IH F]; simpl.
  - constructor; constructor.
  - destruct (compare x y <=? 0) eqn:C.
    + apply Z.leb_le in C. constructor.
      * constructor; assumption.
      * constructor; [exact C|].
        eapply List.Forall_impl; [|exact F]. intros z Hz. eapply compare_trans; eassumption.
    + apply Z.leb_gt in C. constructor; [exact IH|].
      assert (Hyx : compare y x <= 0) by (destruct (compare_total x y); [lia | assumption]).
      eapply Permutation_Forall; [symmetry; apply insert_Permutation|].
      constructor; assumption.
Qed.

Lemma sort_sorted l : StronglySorted (fun a b => compare a b <= 0) (JsArray.sort compare l).
Proof.
  induction l as [|x l IH]; simpl; [constructor|]. apply insert_sorted. exact IH.
Qed.

End Sort.

(** ** Objects used as maps *)

Lemma eqb_sym_string (s t : string) : String.eqb s t = String.eqb t s.
Proof.
  destruct (String.eqb_spec s t) as [->|N].
  - symmetry. apply String.eqb_refl.
  - symmetry. apply String.eqb_neq. congruence.
Qed.

Lemma keys_set {V} (o : JsObject.t V) key v :
  List.map fst (JsObject.set o key v) = see (List.map fst o) key.
Proof.
  unfold see. induction o as [|[k w] o IH]; simpl; [reflexivity|].
  rewrite (eqb_sym_string key k).
  destruct (String.eqb k key); simpl; [reflexivity|].
  rewrite IH. destruct (existsb (String.eqb key) (List.map fst o)); reflexivity.
Qed.

Lemma own_set_same {V} (o : JsObject.t V) key v :
  JsObject.own (JsObject.set o key v) key = Some v.
Proof.
  induction o as [|[k w] o IH]; simpl.
  - rewrite String.eqb_refl. reflexivity.
  - destruct (String.eqb k key) eqn:E; simpl; rewrite E; [reflexivity | exact IH].
Qed.

Lemma own_None_keys {V} (o : JsObject.t V) key :
  JsObject.own o key = None -> existsb (String.eqb key) (List.map fst o) = false.
Proof.
  induction o as [|[k w] o IH]; simpl; [reflexivity|].
  rewrite (eqb_sym_string key k). destruct (String.eqb k key); [discriminate|]. exact IH.
Qed.

Lemma own_Some_keys {V} (o : JsObject.t V) key v :
  JsObject.own o key = Some v -> existsb (String.eqb key) (List.map fst o) = true.
Proof.
  induction o as [|[k w] o IH]; simpl; [discriminate|].
  rewrite (eqb_sym_string key k). destruct (String.eqb k key); [reflexivity|]. exact IH.
Qed.

Lemma see_see seen name : see (see seen name) name = see seen name.
Proof.
  unfold see at 2 3. destruct (existsb (String.eqb name) seen) eqn:E.
  - unfold see. rewrite E. reflexivity.
  - unfold see. rewrite existsb_app. simpl. rewrite String.eqb_refl, orb_true_r. reflexivity.
Qed.

(** ** The summary: how the groups are built *)

Lemma push_leaf_keys cluster groups leaf groups' :
  push_leaf cluster groups leaf = Returned groups' ->
  List.map fst groups' = see (List.map fst groups) (common_name (properties leaf)).
Proof.
  unfold push_leaf, JsObject.get. cbv zeta.
  set (name := common_name (properties leaf)).
  destruct (JsObject.own groups name) as [members|] eqn:O.
  - rewrite O. intros [= <-]. apply keys_set.
  - destruct (existsb (String.eqb name) JsObject.Object_prototype) eqn:P.
    + rewrite O. discriminate.
    + rewrite own_set_same. intros [= <-]. rewrite !keys_set. apply see_see.
Qed.

Lemma push_leaf_returns cluster groups leaf :
  existsb (String.eqb (common_name (properties leaf))) JsObject.Object_prototype = false ->
  exists groups', push_leaf cluster groups leaf = Returned groups'.
Proof.
  intros P. unfold push_leaf, JsObject.get. cbv zeta.
  set (name := common_name (properties leaf)) in *.
  destruct (JsObject.own groups name) as [members|] eqn:O.
  - rewrite O. eauto.
  - rewrite P, own_set_same. eauto.
Qed.

Lemma push_leaves_keys cluster leaves : forall groups groups',
  Promise.reduce (push_leaf cluster) leaves groups = Returned groups' ->
  List.map fst groups' = fold_left see (species leaves) (List.map fst groups).
Proof.
  induction leaves as [|leaf leaves IH]; simpl; intros groups groups' R.
  - injection R as <-. reflexivity.
  - destruct (push_leaf cluster groups leaf) as [groups1|e] eqn:P; [|discriminate].
    simpl in R. rewrite (IH _ _ R), (push_leaf_keys _ _ _ _ P). reflexivity.
Qed.

Lemma push_leaves_returns cluster leaves : forall groups,
  Forall (fun leaf =>
    existsb (String.eqb (common_name (properties leaf))) JsObject.Object_prototype = false)
    leaves ->
  exists groups', Promise.reduce (push_leaf cluster) leaves groups = Returned groups'.
Proof.
  induction leaves as [|leaf leaves IH]; simpl; intros groups F.
  - eauto.
  - apply Forall_cons in F as [P F].
    destruct (push_leaf_returns cluster groups leaf P) as [groups1 ->]. simpl.
    apply IH. exact F.
Qed.

Lemma meet_steps_extend map items : forall met out,
  Promise.reduce (meet map) items met = Returned out -> exists more, out = met ++ more.
Proof.
  induction items as [|item items IH]; simpl; intros met out M.
  - injection M as <-. exists []. rewrite app_nil_r. reflexivity.
  - unfold meet at 1 in M. destruct (leaves_of map item) as [leaves|e]; [|discriminate].
    simpl in M. destruct (IH _ _ M) as [more ->]. exists (leaves ++ more).
    rewrite app_assoc. reflexivity.
Qed.

Lemma group_steps_keys map items : forall groups groups' met,
  Promise.reduce (group_step map) items groups = Returned groups' ->
  exists leaves,
    Promise.reduce (meet map) items met = Returned (met ++ leaves)
    /\ List.map fst groups' = fold_left see (species leaves) (List.map fst groups).
Proof.
  induction items as [|item items IH]; simpl; intros groups groups' met R.
  - injection R as <-. exists []. rewrite app_nil_r. split; reflexivity.
  - unfold group_step at 1 in R. unfold meet at 1.
    destruct (leaves_of map item) as [leaves|e]; [|discriminate]. simpl in *.
    destruct (Promise.reduce (push_leaf item) leaves groups) as [groups1|e] eqn:P;
      [|discriminate].
    simpl in R. destruct (IH _ _ (met ++ leaves) R) as (more & M & K).
    exists (leaves ++ more). rewrite app_assoc. split; [exact M|].
    rewrite K, (push_leaves_keys _ _ _ _ P). unfold species.
    rewrite List.map_app, fold_left_app. reflexivity.
Qed.

Lemma group_steps_return map items : forall groups met leaves,
  Promise.reduce (meet map) items met = Returned (met ++ leaves) ->
  Forall (fun leaf =>
    existsb (String.eqb (common_name (properties leaf))) JsObject.Object_prototype = false)
    leaves ->
  exists groups', Promise.reduce (group_step map) items groups = Returned groups'.
Proof.
  induction items as [|item items IH]; simpl; intros groups met leaves M F.
  - eauto.
  - unfold group_step at 1. unfold meet at 1 in M.
    destruct (leaves_of map item) as [first|e]; [|discriminate]. simpl in *.
    assert (exists more, leaves = first ++ more) as [more ->].
    { destruct (meet_steps_extend _ _ _ _ M) as [more E].
      rewrite <- app_assoc in E. apply app_inv_head in E. eauto. }
    apply Forall_app in F as [F1 F2].
    destruct (push_leaves_returns item first groups F1) as [groups1 ->]. simpl.
    apply (IH groups1 (met ++ first) more); [|exact F2].
    rewrite <- app_assoc. exact M.
Qed.

Lemma groupedTrees_keys map groups :
  groupedTrees map = Returned groups ->
  exists leaves,
    arrivals map = Returned leaves /\ List.map fst groups = first_seen (species leaves).
Proof.
  intros G. destruct (group_steps_keys map _ _ _ [] G) as (leaves & M & K).
  exists leaves. split; [exact M | exact K].
Qed.

(** The summary is produced whenever every cluster's leaves can be fetched
    and no species is named like a property of [Object.prototype]. *)
Lemma groupedTrees_returns map leaves :
  arrivals map = Returned leaves ->
  Forall (fun leaf =>
    existsb (String.eqb (common_name (properties leaf))) JsObject.Object_prototype = false)
    leaves ->
  exists groups, groupedTrees map = Returned groups.
Proof. intros M F. exact (group_steps_return map _ [] [] leaves M F). Qed.

Lemma updateVisibleTrees_returned st groups :
  groupedTrees (mapRef st) = Returned groups ->
  updateVisibleTrees st
  = (Returned tt, setVisibleTrees (JsArray.sort by_count (JsObject.entries groups)) st, []).
Proof. intros G. unfold updateVisibleTrees. run_handler. rewrite G. reflexivity. Qed.

Lemma entries_without_index {V} (o : JsObject.t V) :
  Forall (fun entry => JsObject.is_array_index (fst entry) = false) o ->
  JsObject.entries o = o.
Proof.
  intros F. unfold JsObject.entries.
  assert (E1 : List.filter (fun e => JsObject.is_array_index (fst e)) o = []).
  { induction F as [|e o He F IH]; simpl; [reflexivity|]. rewrite He. exact IH. }
  assert (E2 : List.filter (fun e => negb (JsObject.is_array_index (fst e))) o = o).
  { clear E1. induction F as [|e o He F IH]; simpl; [reflexivity|]. rewrite He. simpl.
    f_equal. exact IH. }
  rewrite E1, E2. reflexivity.
Qed.

Lemma entries_Permutation {V} (o : JsObject.t V) : Permutation (JsObject.entries o) o.
Proof.
  unfold JsObject.entries. rewrite sort_Permutation.
  induction o as [|e o IH]; simpl; [reflexivity|].
  destruct (JsObject.is_array_index (fst e)); simpl.
  - apply perm_skip. exact IH.
  - rewrite <- Permutation_middle. apply perm_skip. exact IH.
Qed.

Lemma filter_sublist {A} (keep : A -> bool) l : sublist (List.filter keep l) l.
Proof.
  induction l as [|x l IH]; simpl; [constructor|].
  destruct (keep x); [apply sublist_skip | apply sublist_cons]; exact IH.
Qed.

Lemma map_sublist {A B} (f : A -> B) l k : sublist l k -> sublist (List.map f l) (List.map f k).
Proof. induction 1; simpl; constructor; assumption. Qed.

Lemma StronglySorted_weaken {A} (R R' : A -> A -> Prop) l :
  (forall a b, R a b -> R' a b) -> StronglySorted R l -> StronglySorted R' l.
Proof.
  intros W. induction 1 as [|x l S IH F]; constructor; [exact IH|].
  eapply List.Forall_impl; [|exact F]. intros b. apply W.
Qed.

Lemma by_count_order (a b : string * list Rendered) :
  by_count a b <= 0 <-> (length (snd b) <= length (snd a))%nat.
Proof. unfold by_count. lia. Qed.

(** C7, as the code has it. Every summary that is produced holds exactly the
    groups that were built, in descending order of member count. Groups with
    the same count stay in the order of [Object.entries]; when no species
    name is an array index that is the order in which the species first
    arrived: for every count, the species with that count are listed in
    arrival order. *)
Theorem summary_sorted_ties_by_arrival st groups :
  groupedTrees (mapRef st) = Returned groups ->
  let summary := visibleTrees (state_after (updateVisibleTrees st)) in
  outcome_of (updateVisibleTrees st) = Returned tt
  /\ Permutation summary groups
  /\ StronglySorted (fun a b => (length (snd b) <= length (snd a))%nat) summary
  /\ (forall n, List.filter (counts n) summary
                = List.filter (counts n) (JsObject.entries groups))
  /\ (Forall (fun group => JsObject.is_array_index (fst group) = false) groups ->
      exists leaves,
        arrivals (mapRef st) = Returned leaves
        /\ forall n, sublist (List.map fst (List.filter (counts n) summary))
                             (first_seen (species leaves))).
Proof.
  intros G summary. subst summary. rewrite (updateVisibleTrees_returned _ _ G).
  unfold outcome_of, state_after. simpl.
  assert (T : forall n, List.filter (counts n) (JsArray.sort by_count (JsObject.entries groups))
                        = List.filter (counts n) (JsObject.entries groups)).
  { intros n. apply sort_filter. intros x y Hx Hy. unfold counts in *.
    apply Nat.eqb_eq in Hx, Hy. unfold by_count. lia. }
  split; [reflexivity|]. split; [|split; [|split]].
  - rewrite sort_Permutation. apply entries_Permutation.
  - eapply StronglySorted_weaken; [|apply sort_sorted].
    + intros a b. apply by_count_order.
    + intros x y. unfold by_count. lia.
    + intros x y z. unfold by_count. lia.
  - exact T.
  - intros F. destruct (groupedTrees_keys _ _ G) as (leaves & M & K).
    exists leaves. split; [exact M|]. intros n.
    rewrite T, (entries_without_index _ F), <- K.
    apply map_sublist, filter_sublist.
Qed.

(** ** The highlight filters *)

Lemma highlight_steps map treeName clusters : forall found ids,
  Promise.reduce (highlight_step map treeName) clusters found = Returned ids ->
  ids = found ++ List.map cluster_id (List.filter (has_leaf_of map treeName) clusters).
Proof.
  induction clusters as [|c clusters IH]; simpl; intros found ids R.
  - injection R as <-. rewrite app_nil_r. reflexivity.
  - unfold highlight_step at 1, getClusterFeatures in R. unfold has_leaf_of at 1.
    destruct (cluster_leaves map (cluster_id c)) as [leaves|]; [|discriminate].
    simpl in R.
    destruct (existsb (fun leaf => String.eqb (common_name (properties leaf)) treeName) leaves);
      simpl in R; rewrite (IH _ _ R); simpl; [rewrite <- app_assoc|]; reflexivity.
Qed.

Lemma highlight_steps_return map treeName clusters : forall found,
  Forall (fun c => cluster_leaves map (cluster_id c) <> None) clusters ->
  exists ids, Promise.reduce (highlight_step map treeName) clusters found = Returned ids.
Proof.
  induction clusters as [|c clusters IH]; simpl; intros found F.
  - eauto.
  - apply Forall_cons in F as [Hc F].
    unfold highlight_step at 1, getClusterFeatures.
    destruct (cluster_leaves map (cluster_id c)) as [leaves|]; [|congruence].
    simpl.
    destruct (existsb (fun leaf => String.eqb (common_name (properties leaf)) treeName) leaves);
      simpl; apply IH; exact F.
Qed.

Lemma highlightTree_returned treeName st :
  Forall (fun c => cluster_leaves (mapRef st) (cluster_id c) <> None)
         (rendered_clusters (mapRef st)) ->
  highlightTree treeName st
  = (Returned tt,
     set_mapRef
       (setFilter_highlighted_cluster
          (mkFilter "cluster_id"
             (List.map Js.Num
                (List.map cluster_id
                   (List.filter (has_leaf_of (mapRef st) treeName)
                                (rendered_clusters (mapRef st))))))
          (setFilter_highlighted_point (mkFilter "common_name" [Js.Str treeName]) (mapRef st)))
       st,
     []).
Proof.
  intros F. destruct (highlight_steps_return (mapRef st) treeName _ [] F) as [ids R].
  pose proof (highlight_steps _ _ _ _ _ R) as E. simpl in E. subst ids.
  unfold highlightTree. run_handler. rewrite R. reflexivity.
Qed.

Lemma debouncedHighlightTree_returned rendered k st :
  selected (layersLoaded rendered) (highlightedTree rendered) = Some k ->
  Forall (fun c => cluster_leaves (mapRef st) (cluster_id c) <> None)
         (rendered_clusters (mapRef st)) ->
  debouncedHighlightTree rendered st
  = (Returned tt,
     set_mapRef
       (setFilter_highlighted_cluster
          (mkFilter "cluster_id"
             (List.map Js.Num
                (List.map cluster_id
                   (List.filter (has_leaf_of (mapRef st) k)
                                (rendered_clusters (mapRef st))))))
          (setFilter_highlighted_point (mkFilter "common_name" [Js.Str k]) (mapRef st)))
       st,
     []).
Proof.
  intros S F. unfold debouncedHighlightTree. rewrite S.
  exact (highlightTree_returned k st F).
Qed.

Lemma viewport_settled_returned k st :
  selected (layersLoaded st) (highlightedTree st) = Some k ->
  Forall (fun c => cluster_leaves (mapRef st) (cluster_id c) <> None)
         (rendered_clusters (mapRef st)) ->
  viewport_settled_highlight st
  = (Returned tt,
     set_mapRef
       (setFilter_highlighted_cluster
          (mkFilter "cluster_id"
             (List.map Js.Num
                (List.map cluster_id
                   (List.filter (has_leaf_of (mapRef st) k)
                                (rendered_clusters (mapRef st))))))
          (setFilter_highlighted_point (mkFilter "common_name" [Js.Str k]) (mapRef st)))
       st,
     []).
Proof.
  intros S F. unfold viewport_settled_highlight, bind, get.
  rewrite (debouncedHighlightTree_returned st k st S F). reflexivity.
Qed.

Lemma matches_common_name treeName feature :
  matches (mkFilter "common_name" [Js.Str treeName]) (Point feature) = true
  <-> common_name (properties feature) = treeName.
Proof.
  unfold matches. simpl. rewrite orb_false_r. apply String.eqb_eq.
Qed.

Lemma matches_cluster_id ids cluster :
  matches (mkFilter "cluster_id" (List.map Js.Num ids)) (Cluster cluster) = true
  <-> In (cluster_id cluster) ids.
Proof.
  unfold matches. simpl. rewrite existsb_exists. split.
  - intros (v & Hv & E). apply in_map_iff in Hv as (id & <- & Hid).
    simpl in E. apply Z.eqb_eq in E. rewrite E. exact Hid.
  - intros H. exists (Js.Num (cluster_id cluster)). split.
    + apply in_map. exact H.
    + simpl. apply Z.eqb_refl.
Qed.

Lemma has_leaf_of_spec map treeName cluster :
  has_leaf_of map treeName cluster = true
  <-> exists leaves leaf,
        cluster_leaves map (cluster_id cluster) = Some leaves
        /\ In leaf leaves /\ common_name (properties leaf) = treeName.
Proof.
  unfold has_leaf_of. destruct (cluster_leaves map (cluster_id cluster)) as [leaves|].
  - rewrite existsb_exists. split.
    + intros (leaf & H & E). apply String.eqb_eq in E. eauto.
    + intros (leaves' & leaf & [= <-] & H & E). exists leaf. split; [exact H|].
      apply String.eqb_eq. exact E.
  - split; [discriminate|]. intros (leaves & leaf & E & _). discriminate.
Qed.

(** C5, as the code has it. The viewport settles and the debounced callback
    runs: it was made by the effect of a render in which the layers were
    loaded and the non-empty species [k] was selected, [k] is still the
    selection, and the leaves of every drawn cluster can be fetched. The run
    ends by setting both filters, one right after the other, and changes
    nothing else: the point filter matches exactly the trees of species [k],
    and the cluster filter holds exactly the ids of the drawn clusters that
    have a leaf of species [k]. (A change of the store alone runs none of
    this: see [stale_cluster_filter_after_add].) *)
Theorem settled_highlight_filters rendered k st :
  selected (layersLoaded rendered) (highlightedTree rendered) = Some k ->
  highlightedTree st = Some k ->
  Forall (fun c => cluster_leaves (mapRef st) (cluster_id c) <> None)
         (rendered_clusters (mapRef st)) ->
  let run := debouncedHighlightTree rendered st in
  let map := mapRef (state_after run) in
  outcome_of run = Returned tt
  /\ state_after run
     = set_mapRef (setFilter_highlighted_cluster (highlighted_cluster map)
                     (setFilter_highlighted_point (highlighted_point map) (mapRef st))) st
  /\ (forall feature,
        matches (highlighted_point map) (Point feature) = true
        <-> common_name (properties feature) = k)
  /\ (forall cluster, In cluster (rendered_clusters (mapRef st)) ->
        (matches (highlighted_cluster map) (Cluster cluster) = true
         <-> exists leaves leaf,
               cluster_leaves (mapRef st) (cluster_id cluster) = Some leaves
               /\ In leaf leaves /\ common_name (properties leaf) = k))
  /\ (forall v, In v (filter_values (highlighted_cluster map)) ->
        exists cluster, In cluster (rendered_clusters (mapRef st))
                        /\ v = Js.Num (cluster_id cluster)).
Proof.
  intros S _ F run map. subst map run.
  rewrite (debouncedHighlightTree_returned rendered k st S F).
  unfold outcome_of, state_after. simpl.
  split; [reflexivity|]. split; [reflexivity|]. split; [|split].
  - intros feature. apply matches_common_name.
  - intros cluster Hc. rewrite matches_cluster_id, <- has_leaf_of_spec, in_map_iff. split.
    + intros (c' & E & Hc'). apply filter_In in Hc' as [_ H].
      unfold has_leaf_of in *. rewrite <- E. exact H.
    + intros H. exists cluster. split; [reflexivity|]. apply filter_In. tauto.
  - intros v Hv. apply in_map_iff in Hv as (id & <- & Hid).
    apply in_map_iff in Hid as (c & <- & Hc). apply filter_In in Hc as [Hc _]. eauto.
Qed.

Lemma settled_highlight_filters_witness :
  matches (highlighted_cluster (mapRef (state_after
     (debouncedHighlightTree (Sample.selecting "Oak" Sample.zoomed_in)
                             (Sample.selecting "Oak" Sample.zoomed_out)))))
     (Cluster Sample.cluster7) = true
  /\ matches (highlighted_point (mapRef (state_after
       (debouncedHighlightTree (Sample.selecting "Oak" Sample.zoomed_in)
                               (Sample.selecting "Oak" Sample.zoomed_out)))))
       (Point Sample.maple3) = false.
Proof.
  destruct (settled_highlight_filters (Sample.selecting "Oak" Sample.zoomed_in) "Oak"
              (Sample.selecting "Oak" Sample.zoomed_out))
    as (_ & _ & P & C & _).
  - reflexivity.
  - reflexivity.
  - repeat constructor. simpl. discriminate.
  - split.
    + apply (C Sample.cluster7); [simpl; tauto|].
      exists [Sample.oak1; Sample.oak2], Sample.oak1. simpl. tauto.
    + apply not_true_is_false. intros M. apply P in M. discriminate M.
Defined.

(** C5 as stated fails for a change of the store: Maple is selected and the
    map shows the two oaks as cluster 7, so no cluster is highlighted; a maple
    is then added and the map draws the three trees as cluster 8. The store
    has the new maple, cluster 8 is drawn and has a Maple leaf, and the cluster
    filter is still the empty one: cluster 8 is not highlighted. *)
Lemma stale_cluster_filter_after_add :
  highlightedTree (state_after (add_and_commit Sample.accepting Sample.maple_form
     Sample.with_new_maple
     (state_after (viewport_settled_highlight (Sample.selecting "Maple" Sample.only_oaks)))))
  = Some "Maple"
  /\ features (treeLocations (state_after (add_and_commit Sample.accepting Sample.maple_form
       Sample.with_new_maple
       (state_after (viewport_settled_highlight (Sample.selecting "Maple" Sample.only_oaks))))))
     = [Sample.oak1; Sample.oak2; Sample.maple3; Sample.maple4]
  /\ rendered_clusters (mapRef (state_after (add_and_commit Sample.accepting Sample.maple_form
       Sample.with_new_maple
       (state_after (viewport_settled_highlight (Sample.selecting "Maple" Sample.only_oaks))))))
     = [Sample.cluster8]
  /\ has_leaf_of (mapRef (state_after (add_and_commit Sample.accepting Sample.maple_form
       Sample.with_new_maple
       (state_after (viewport_settled_highlight (Sample.selecting "Maple" Sample.only_oaks))))))
       "Maple" Sample.cluster8 = true
  /\ filter_values (highlighted_cluster (mapRef (state_after (add_and_commit Sample.accepting
       Sample.maple_form Sample.with_new_maple
       (state_after (viewport_settled_highlight (Sample.selecting "Maple" Sample.only_oaks)))))))
     = []
  /\ matches (highlighted_cluster (mapRef (state_after (add_and_commit Sample.accepting
       Sample.maple_form Sample.with_new_maple
       (state_after (viewport_settled_highlight (Sample.selecting "Maple" Sample.only_oaks)))))))
       (Cluster Sample.cluster8) = false.
Proof. repeat split. Qed.

(** The callback keeps the species of the render that made it. Oak is
    selected and the map moves, so that the callback of that render is
    pending; Maple is then clicked, which sets the filters for Maple; when the
    pending callback runs, Maple is still the selection and the filters are
    those of Oak. *)
Lemma pending_callback_keeps_its_key :
  let oak := state_after (viewport_settled_highlight (Sample.selecting "Oak" Sample.zoomed_out)) in
  let maple := state_after (click_and_commit "Maple" oak) in
  let late := state_after (debouncedHighlightTree oak maple) in
  highlighted_point (mapRef maple) = mkFilter "common_name" [Js.Str "Maple"]
  /\ highlightedTree late = Some "Maple"
  /\ highlighted_point (mapRef late) = mkFilter "common_name" [Js.Str "Oak"]
  /\ highlighted_cluster (mapRef late) = mkFilter "cluster_id" [Js.Num 7].
Proof. repeat split. Qed.

(** ** The summary: what is counted *)

Lemma JsSet_add_spec s x :
  NoDup s -> NoDup (JsSet.add s x) /\ forall y, In y (JsSet.add s x) <-> In y s \/ y = x.
Proof.
  intros N. unfold JsSet.add. destruct (existsb (Z.eqb x) s) eqn:E.
  - split; [exact N|]. intros y. split; [tauto|]. intros [H| ->]; [exact H|].
    apply existsb_exists in E as (z & Hz & Ez). apply Z.eqb_eq in Ez. subst z. exact Hz.
  - split.
    + apply NoDup_app. split; [exact N|]. split; [|apply NoDup_singleton].
      intros y Hy Hx. apply list_elem_of_In in Hy. apply list_elem_of_In in Hx.
      destruct Hx as [<-|[]].
      assert (existsb (Z.eqb x) s = true); [|congruence].
      apply existsb_exists. exists x. split; [exact Hy | apply Z.eqb_refl].
    + intros y. rewrite in_app_iff. simpl. intuition congruence.
Qed.

Lemma JsSet_from_spec xs : forall s,
  NoDup s ->
  NoDup (fold_left JsSet.add xs s)
  /\ forall y, In y (fold_left JsSet.add xs s) <-> In y s \/ In y xs.
Proof.
  induction xs as [|x xs IH]; simpl; intros s N.
  - split; [exact N | tauto].
  - destruct (JsSet_add_spec s x N) as [N1 M1].
    destruct (IH _ N1) as [N2 M2]. split; [exact N2|].
    intros y. rewrite M2, M1. intuition congruence.
Qed.

Lemma find_location_id trees id :
  In id (List.map (fun feature => location_id (properties feature)) trees) ->
  exists feature,
    List.find (fun feature => location_id (properties feature) =? id) trees = Some feature
    /\ location_id (properties feature) = id.
Proof.
  induction trees as [|f trees IH]; simpl; [tauto|].
  destruct (Z.eqb_spec (location_id (properties f)) id) as [E|N].
  - intros _. exists f. split; [reflexivity | exact E].
  - intros [H|H]; [contradiction | exact (IH H)].
Qed.

Lemma dedupe_location_ids trees :
  List.map (fun feature => location_id (properties feature)) (dedupe trees)
  = JsSet.from (List.map (fun feature => location_id (properties feature)) trees).
Proof.
  unfold dedupe.
  assert (F : forall id,
    In id (JsSet.from (List.map (fun feature => location_id (properties feature)) trees)) ->
    In id (List.map (fun feature => location_id (properties feature)) trees)).
  { intros id H. apply (JsSet_from_spec _ [] NoDup_nil_2) in H. simpl in H. tauto. }
  revert F.
  generalize (JsSet.from (List.map (fun feature => location_id (properties feature)) trees)).
  intros ids. induction ids as [|id ids IH]; intros F; [reflexivity|].
  destruct (find_location_id trees id (F id (or_introl eq_refl))) as (f & Ef & Eid).
  simpl. rewrite Ef. simpl. rewrite Eid. f_equal. apply IH.
  intros id' H. apply F. right. exact H.
Qed.

(** X1. The trees drawn on their own are met once per [location_id],
    whatever the query repeats. *)
Lemma dedupe_NoDup trees :
  NoDup (List.map (fun feature => location_id (properties feature)) (dedupe trees))
  /\ forall id,
       In id (List.map (fun feature => location_id (properties feature)) (dedupe trees))
       <-> In id (List.map (fun feature => location_id (properties feature)) trees).
Proof.
  rewrite dedupe_location_ids.
  destruct (JsSet_from_spec
              (List.map (fun feature => location_id (properties feature)) trees) []
              NoDup_nil_2) as [N M].
  split; [exact N|]. intros id. unfold JsSet.from. rewrite M. simpl. tauto.
Qed.

(** C6 fails on the code for clusters. The query returns cluster 7 twice;
    its two oaks are met twice each, and the summary counts four trees for
    Oak where two are visible. *)
Theorem cluster_returned_twice_counted_twice :
  arrivals (mapRef (Sample.viewing Sample.across_tiles))
  = Returned [Sample.oak1; Sample.oak2; Sample.oak1; Sample.oak2]
  /\ visibleTrees (state_after (updateVisibleTrees (Sample.viewing Sample.across_tiles)))
     = [("Oak", [Cluster Sample.cluster7; Cluster Sample.cluster7;
                 Cluster Sample.cluster7; Cluster Sample.cluster7])].
Proof. split; reflexivity. Qed.

Lemma summary_sorted_ties_by_arrival_witness :
  List.map fst (visibleTrees (state_after (updateVisibleTrees (Sample.viewing Sample.zoomed_in))))
  = ["Oak"; "Maple"]
  /\ StronglySorted (fun a b => (length (snd b) <= length (snd a))%nat)
       (visibleTrees (state_after (updateVisibleTrees (Sample.viewing Sample.zoomed_out)))).
Proof.
  split.
  - reflexivity.
  - exact (proj1 (proj2 (proj2 (summary_sorted_ties_by_arrival
             (Sample.viewing Sample.zoomed_out)
             [("Maple", [Point Sample.maple3]);
              ("Oak", [Cluster Sample.cluster7; Cluster Sample.cluster7])]
             eq_refl)))).
Defined.

(** C7 as stated fails for species named by numerals: "2" arrives before
    "1", both have one member, and the summary lists "1" first. *)
Lemma numeral_species_tie_not_by_arrival :
  arrivals (mapRef (Sample.viewing Sample.numbered))
  = Returned [Sample.tree_two; Sample.tree_one]
  /\ first_seen (species [Sample.tree_two; Sample.tree_one]) = ["2"; "1"]
  /\ List.map (fun group => (fst group, length (snd group)))
       (visibleTrees (state_after (updateVisibleTrees (Sample.viewing Sample.numbered))))
     = [("1", 1%nat); ("2", 1%nat)].
Proof. repeat split. Qed.

Lemma burst_recomputes_once_witness :
  recomputes (after_events
     [mkMoveEnd 1000 Sample.zoomed_in; mkMoveEnd 1100 Sample.zoomed_in;
      mkMoveEnd 1350 Sample.zoomed_out]
     (mounted (Sample.viewing Sample.zoomed_in)))
  = [(1650, mapRef (Sample.viewing Sample.zoomed_out))]
  /\ List.map fst (visibleTrees (app (after_events
       [mkMoveEnd 1000 Sample.zoomed_in; mkMoveEnd 1100 Sample.zoomed_in;
        mkMoveEnd 1350 Sample.zoomed_out]
       (mounted (Sample.viewing Sample.zoomed_in)))))
     = ["Oak"; "Maple"].
Proof.
  destruct (burst_recomputes_once
              [mkMoveEnd 1000 Sample.zoomed_in; mkMoveEnd 1100 Sample.zoomed_in]
              (mkMoveEnd 1350 Sample.zoomed_out)
              (Sample.viewing Sample.zoomed_in)) as [R A].
  - reflexivity.
  - reflexivity.
  - simpl. lia.
  - split; [exact R|].
    exact (f_equal (fun s => List.map fst (visibleTrees s)) A).
Defined.

(** ** Further properties of the handlers *)

(** X2. A successful add appends the feature made from the server's answer at
    the end of the store, keeps the collection's [type] and closes the form. *)
Theorem successful_add_appends backend newTree addedTree st :
  POST_trees backend (sent_for newTree) = Ok2xx addedTree ->
  let after := state_after (handleAddTreeSubmit backend newTree st) in
  features (treeLocations after) = features (treeLocations st) ++ [treeToFeature addedTree]
  /\ collection_type (treeLocations after) = collection_type (treeLocations st)
  /\ isFormVisible after = false.
Proof.
  intros E after. subst after. rewrite (handleAddTreeSubmit_ok _ _ _ st E).
  repeat split.
Qed.

Lemma successful_add_appends_witness :
  features (treeLocations
     (state_after (handleAddTreeSubmit Sample.accepting Sample.maple_form Sample.loaded)))
  = [Sample.oak1; Sample.oak2; Sample.maple3; Sample.maple4].
Proof.
  exact (proj1 (successful_add_appends Sample.accepting Sample.maple_form
                  (mkTree 4 "acsa" "acer saccharum" "Maple" (420002 # 10000)
                          (-710002 # 10000) "bob" false)
                  Sample.loaded eq_refl)).
Defined.

(** X3. A removal whose prompt is cancelled or left empty sends nothing
    and changes nothing. *)
Theorem declined_removal_is_noop backend answer locationId st :
  confirmed_by answer = None ->
  state_after (removeTree backend answer locationId st) = st
  /\ outcome_of (removeTree backend answer locationId st) = Returned tt
  /\ forall removedBy,
       ~ In (fetch_PUT_trees_remove locationId removedBy)
            (effects_of (removeTree backend answer locationId st)).
Proof.
  intros C. rewrite (removeTree_declined _ _ _ st C). repeat split.
  intros removedBy [H|[]]. discriminate H.
Qed.

Lemma declined_removal_is_noop_witness :
  state_after (removeTree Sample.accepting None 2 Sample.loaded) = Sample.loaded.
Proof.
  exact (proj1 (declined_removal_is_noop Sample.accepting None 2 Sample.loaded eq_refl)).
Defined.

(** X4. When the map shows neither a tree nor a cluster the summary is
    empty. *)
Theorem nothing_visible_empty_summary st :
  rendered_points (mapRef st) = [] ->
  rendered_clusters (mapRef st) = [] ->
  updateVisibleTrees st = (Returned tt, setVisibleTrees [] st, []).
Proof.
  intros P C. apply (updateVisibleTrees_returned st []). unfold groupedTrees.
  rewrite P, C. reflexivity.
Qed.

Lemma nothing_visible_empty_summary_witness :
  visibleTrees (state_after (updateVisibleTrees Sample.loaded)) = [].
Proof.
  rewrite (nothing_visible_empty_summary Sample.loaded eq_refl eq_refl). reflexivity.
Defined.

(** * Properties of the rest of the application *)

(** ** The store under add and remove *)

Lemma filter_other_than_all locationId l :
  Forall (other_than locationId) l -> filter (other_than locationId) l = l.
Proof.
  induction 1 as [|f l H F IH]; [reflexivity|].
  rewrite filter_cons, decide_True by exact H. f_equal. exact IH.
Qed.

Lemma filter_other_than_app locationId l k :
  filter (other_than locationId) (l ++ k)
  = filter (other_than locationId) l ++ filter (other_than locationId) k.
Proof. apply filter_app. Qed.

Lemma collection_eta c :
  {| collection_type := collection_type c; features := features c |} = c.
Proof. destruct c. reflexivity. Qed.

(** X5. Removing the tree that was just added undoes the add: when the
    server gave the new tree an id that no feature of the store had, a
    successful add followed by a successful removal of that id leaves the
    store exactly as it was before the add. *)
Theorem add_then_remove_restores backend newTree addedTree answer removedBy st :
  POST_trees backend (sent_for newTree) = Ok2xx addedTree ->
  confirmed_by answer = Some removedBy ->
  PUT_trees_remove backend (tree_location_id addedTree) removedBy = Ok2xx tt ->
  Forall (other_than (tree_location_id addedTree)) (features (treeLocations st)) ->
  treeLocations
    (state_after (removeTree backend answer (tree_location_id addedTree)
       (state_after (handleAddTreeSubmit backend newTree st))))
  = treeLocations st.
Proof.
  intros A C R Fresh.
  rewrite (handleAddTreeSubmit_ok _ _ _ st A). unfold state_after at 2. simpl.
  rewrite (removeTree_ok _ _ _ _ _ C R). unfold state_after. simpl.
  rewrite filter_other_than_app, (filter_other_than_all _ _ Fresh).
  rewrite filter_cons, decide_False, filter_nil, app_nil_r by (intros N; apply N; reflexivity).
  apply collection_eta.
Qed.

Lemma add_then_remove_restores_witness :
  treeLocations
    (state_after (removeTree Sample.accepting (Some "bob") 4
       (state_after (handleAddTreeSubmit Sample.accepting Sample.maple_form Sample.loaded))))
  = Sample.three_trees.
Proof.
  apply (add_then_remove_restores Sample.accepting Sample.maple_form
           (mkTree 4 "acsa" "acer saccharum" "Maple" (420002 # 10000) (-710002 # 10000)
                   "bob" false)
           (Some "bob") "bob" Sample.loaded); try reflexivity.
  repeat constructor; unfold other_than; simpl; lia.
Defined.

(** X6. Removals do not depend on their order and a repeated removal
    changes nothing: removing [a] then [b] leaves the same store as removing
    [b] then [a], and removing [a] a second time leaves the store as the
    first removal left it. *)
Theorem removals_commute_and_repeat backend answer removedBy a b st :
  confirmed_by answer = Some removedBy ->
  PUT_trees_remove backend a removedBy = Ok2xx tt ->
  PUT_trees_remove backend b removedBy = Ok2xx tt ->
  let remove id s := state_after (removeTree backend answer id s) in
  treeLocations (remove b (remove a st)) = treeLocations (remove a (remove b st))
  /\ treeLocations (remove a (remove a st)) = treeLocations (remove a st).
Proof.
  intros C Ra Rb remove. subst remove. cbv beta.
  rewrite !(removeTree_ok _ _ _ a _ C Ra), !(removeTree_ok _ _ _ b _ C Rb).
  unfold state_after. simpl.
  split; f_equal.
  - rewrite !list_filter_filter. apply list_filter_iff. intros f. tauto.
  - rewrite list_filter_filter. apply list_filter_iff. intros f. tauto.
Qed.

Lemma removals_commute_and_repeat_witness :
  features (treeLocations
     (state_after (removeTree Sample.accepting (Some "ann") 3
        (state_after (removeTree Sample.accepting (Some "ann") 1 Sample.loaded)))))
  = features (treeLocations
     (state_after (removeTree Sample.accepting (Some "ann") 1
        (state_after (removeTree Sample.accepting (Some "ann") 3 Sample.loaded))))).
Proof.
  exact (f_equal features
           (proj1 (removals_commute_and_repeat Sample.accepting (Some "ann") "ann" 1 3
                     Sample.loaded eq_refl eq_refl eq_refl))).
Defined.

(** ** Names made of white space *)

Lemma trimEnd_blank s : blank s = true -> Js.trimEnd s = EmptyString.
Proof.
  induction s as [|a s IH]; simpl; [reflexivity|].
  intros B. apply andb_true_iff in B as [Ha Hs].
  rewrite (IH Hs), Ha. reflexivity.
Qed.

(** X7. The emptiness tests run before the name is trimmed: a name made
    only of white space passes the confirmation prompt of a removal and the
    form's required-field test, and the request is then sent with an empty
    [removed_by] or an empty [source]. *)
Theorem blank_name_is_sent_empty backend name st :
  name <> EmptyString ->
  blank name = true ->
  (forall locationId,
     In (fetch_PUT_trees_remove locationId EmptyString)
        (effects_of (removeTree backend (Some name) locationId st)))
  /\ (forall formState,
        form_common_name formState <> EmptyString ->
        form_source formState = name ->
        exists body,
          In (fetch_POST_trees body)
             (effects_of (handleSubmit (Some (handleAddTreeSubmit backend)) formState st))
          /\ payload_source body = EmptyString).
Proof.
  intros N B. pose proof (trimEnd_blank _ B) as T.
  assert (Tn : Js.truthy name = true) by (apply truthy_nonempty; exact N).
  split.
  - intros locationId.
    assert (C : confirmed_by (Some name) = Some EmptyString).
    { unfold confirmed_by. rewrite Tn, T. reflexivity. }
    destruct (PUT_trees_remove backend locationId EmptyString) as [[]| |] eqn:P.
    + rewrite (removeTree_ok _ _ _ _ st C P). simpl. tauto.
    + destruct (removeTree_failed backend _ _ locationId st C) as [e ->];
        [rewrite P; exact I | simpl; tauto].
    + destruct (removeTree_failed backend _ _ locationId st C) as [e ->];
        [rewrite P; exact I | simpl; tauto].
  - intros formState Hc Hs. exists (sent_for formState). split.
    + unfold handleSubmit, bind, perform. simpl.
      apply truthy_nonempty in Hc. rewrite Hc, Hs, Tn. simpl.
      destruct (POST_trees backend (sent_for formState)) as [tree| |] eqn:P.
      * rewrite (handleAddTreeSubmit_ok _ _ tree _ P). simpl. tauto.
      * rewrite handleAddTreeSubmit_failed by (rewrite P; exact I). simpl. tauto.
      * rewrite handleAddTreeSubmit_failed by (rewrite P; exact I). simpl. tauto.
    + simpl. rewrite Hs. exact T.
Qed.

Lemma blank_name_is_sent_empty_witness :
  In (fetch_PUT_trees_remove 2 EmptyString)
     (effects_of (removeTree Sample.accepting (Some "  ") 2 Sample.loaded)).
Proof.
  apply (proj1 (blank_name_is_sent_empty Sample.accepting "  " Sample.loaded
                  ltac:(discriminate) eq_refl)).
Defined.

(** ** The summary: member counts *)

Lemma own_set_other {V} (o : JsObject.t V) key k v :
  k <> key -> JsObject.own (JsObject.set o key v) k = JsObject.own o k.
Proof.
  intros N. induction o as [|[k' w] o IH]; simpl.
  - destruct (String.eqb_spec key k); [congruence | reflexivity].
  - destruct (String.eqb_spec k' key) as [->|N']; simpl.
    + destruct (String.eqb_spec key k); [congruence | reflexivity].
    + destruct (String.eqb k' k); [reflexivity | exact IH].
Qed.

Lemma total_set (o : JsObject.t (list Rendered)) key members :
  (total (JsObject.set o key members) + tally o key = total o + length members)%nat.
Proof.
  unfold total, tally. induction o as [|[k w] o IH]; simpl; [lia|].
  destruct (String.eqb k key); simpl; lia.
Qed.

Lemma push_leaf_tally cluster groups leaf groups' :
  push_leaf cluster groups leaf = Returned groups' ->
  (forall name,
     tally groups' name
     = (tally groups name
        + if String.eqb (common_name (properties leaf)) name then 1 else 0)%nat)
  /\ total groups' = S (total groups).
Proof.
  unfold push_leaf, JsObject.get. cbv zeta.
  set (n := common_name (properties leaf)).
  destruct (JsObject.own groups n) as [members|] eqn:O.
  - rewrite O. intros [= <-]. split.
    + intros name. unfold tally. destruct (String.eqb_spec n name) as [<-|N].
      * rewrite own_set_same, O, length_app. reflexivity.
      * rewrite own_set_other by congruence. lia.
    + pose proof (total_set groups n (members ++ [cluster])) as T.
      unfold tally in T. rewrite O, length_app in T. simpl in T. lia.
  - destruct (existsb (String.eqb n) JsObject.Object_prototype) eqn:P.
    + rewrite O. discriminate.
    + rewrite own_set_same. intros [= <-]. split.
      * intros name. unfold tally. destruct (String.eqb_spec n name) as [<-|N].
        -- rewrite own_set_same, O. reflexivity.
        -- rewrite !own_set_other by congruence. lia.
      * pose proof (total_set (JsObject.set groups n []) n ([] ++ [cluster])) as T1.
        pose proof (total_set groups n []) as T2.
        unfold tally in T1, T2. rewrite own_set_same in T1. rewrite O in T2.
        simpl in T1, T2. lia.
Qed.

Lemma met_of_app name l k : met_of name (l ++ k) = (met_of name l + met_of name k)%nat.
Proof. unfold met_of. rewrite List.filter_app, length_app. reflexivity. Qed.

Lemma push_leaves_tally cluster leaves : forall groups groups',
  Promise.reduce (push_leaf cluster) leaves groups = Returned groups' ->
  (forall name, tally groups' name = (tally groups name + met_of name leaves)%nat)
  /\ total groups' = (total groups + length leaves)%nat.
Proof.
  induction leaves as [|leaf leaves IH]; simpl; intros groups groups' R.
  - injection R as <-. split; [intros name; unfold met_of; simpl; lia | lia].
  - destruct (push_leaf cluster groups leaf) as [groups1|e] eqn:P; [|discriminate].
    simpl in R. destruct (IH _ _ R) as [T S]. destruct (push_leaf_tally _ _ _ _ P) as [T1 S1].
    split.
    + intros name. rewrite T, T1. unfold met_of. simpl.
      destruct (String.eqb (common_name (properties leaf)) name); simpl; lia.
    + lia.
Qed.

Lemma group_steps_tally map items : forall groups groups' met,
  Promise.reduce (group_step map) items groups = Returned groups' ->
  exists leaves,
    Promise.reduce (meet map) items met = Returned (met ++ leaves)
    /\ (forall name, tally groups' name = (tally groups name + met_of name leaves)%nat)
    /\ total groups' = (total groups + length leaves)%nat.
Proof.
  induction items as [|item items IH]; simpl; intros groups groups' met R.
  - injection R as <-. exists []. rewrite app_nil_r.
    split; [reflexivity|]. split; [intros name; unfold met_of; simpl; lia | simpl; lia].
  - unfold group_step at 1 in R. unfold meet at 1.
    destruct (leaves_of map item) as [leaves|e]; [|discriminate]. simpl in *.
    destruct (Promise.reduce (push_leaf item) leaves groups) as [groups1|e] eqn:P;
      [|discriminate].
    simpl in R. destruct (IH _ _ (met ++ leaves) R) as (more & M & T & S).
    destruct (push_leaves_tally _ _ _ _ P) as [T1 S1].
    exists (leaves ++ more). rewrite app_assoc. split; [exact M|]. split.
    + intros name. rewrite T, T1, met_of_app. lia.
    + rewrite S, S1, length_app. lia.
Qed.

Lemma see_spec seen name :
  NoDup seen ->
  NoDup (see seen name) /\ forall x, In x (see seen name) <-> In x seen \/ x = name.
Proof.
  intros N. unfold see. destruct (existsb (String.eqb name) seen) eqn:E.
  - split; [exact N|]. intros x. split; [tauto|]. intros [H| ->]; [exact H|].
    apply existsb_exists in E as (y & Hy & Ey). apply String.eqb_eq in Ey. subst y. exact Hy.
  - split.
    + apply NoDup_app. split; [exact N|]. split; [|apply NoDup_singleton].
      intros x Hx Hn. apply list_elem_of_In in Hx. apply list_elem_of_In in Hn.
      destruct Hn as [<-|[]].
      assert (existsb (String.eqb name) seen = true); [|congruence].
      apply existsb_exists. exists name. split; [exact Hx | apply String.eqb_refl].
    + intros x. rewrite in_app_iff. simpl. intuition congruence.
Qed.

Lemma first_seen_spec names : forall seen,
  NoDup seen ->
  NoDup (fold_left see names seen)
  /\ forall x, In x (fold_left see names seen) <-> In x seen \/ In x names.
Proof.
  induction names as [|n names IH]; simpl; intros seen N.
  - split; [exact N | tauto].
  - destruct (see_spec seen n N) as [N1 M1]. destruct (IH _ N1) as [N2 M2].
    split; [exact N2|]. intros x. rewrite M2, M1. intuition congruence.
Qed.

Lemma own_of_In {V} (o : JsObject.t V) key v :
  NoDup (List.map fst o) -> In (key, v) o -> JsObject.own o key = Some v.
Proof.
  induction o as [|[k w] o IH]; simpl; [tauto|].
  intros N H. apply NoDup_cons in N as [Hk N].
  destruct (String.eqb_spec k key) as [->|Nk].
  - destruct H as [[= <-]|H]; [reflexivity|].
    exfalso. apply Hk. apply list_elem_of_In. apply (in_map fst) in H. exact H.
  - destruct H as [[= E _]|H]; [congruence | exact (IH N H)].
Qed.

Lemma In_of_own {V} (o : JsObject.t V) key v :
  JsObject.own o key = Some v -> In (key, v) o.
Proof.
  induction o as [|[k w] o IH]; simpl; [discriminate|].
  destruct (String.eqb_spec k key) as [->|Nk].
  - intros [= <-]. left. reflexivity.
  - intros H. right. exact (IH H).
Qed.

Lemma own_of_key {V} (o : JsObject.t V) key :
  In key (List.map fst o) -> exists v, JsObject.own o key = Some v.
Proof.
  induction o as [|[k w] o IH]; simpl; [tauto|].
  destruct (String.eqb_spec k key) as [->|Nk]; [eauto|].
  intros [E|H]; [congruence | exact (IH H)].
Qed.

Lemma met_of_pos name leaves :
  In name (species leaves) -> (0 < met_of name leaves)%nat.
Proof.
  unfold met_of, species. induction leaves as [|leaf leaves IH]; simpl; [tauto|].
  destruct (String.eqb_spec (common_name (properties leaf)) name) as [E|N]; simpl.
  - lia.
  - intros [E|H]; [congruence | exact (IH H)].
Qed.

Lemma total_Permutation l k : Permutation l k -> total l = total k.
Proof.
  intros P. unfold total. induction P; simpl; lia.
Qed.

(** X8. Whenever the leaves of every drawn cluster can be fetched and no
    species is named like a property of [Object.prototype], the summary is
    produced and counts every leaf met exactly once: each species met has one
    group, no species has two, the group of a species has as many members as
    there are leaves of that species among the leaves met, no group is empty,
    and the counts add up to the number of leaves met. *)
Theorem summary_counts_leaves st leaves :
  arrivals (mapRef st) = Returned leaves ->
  Forall (fun leaf =>
    existsb (String.eqb (common_name (properties leaf))) JsObject.Object_prototype = false)
    leaves ->
  let summary := visibleTrees (state_after (updateVisibleTrees st)) in
  outcome_of (updateVisibleTrees st) = Returned tt
  /\ NoDup (List.map fst summary)
  /\ (forall name members, In (name, members) summary ->
        length members = met_of name leaves /\ (0 < length members)%nat)
  /\ (forall leaf, In leaf leaves ->
        exists members, In (common_name (properties leaf), members) summary)
  /\ total summary = length leaves.
Proof.
  intros A F summary.
  destruct (groupedTrees_returns _ _ A F) as [groups G].
  destruct (group_steps_keys (mapRef st) _ _ _ [] G) as (leaves1 & M1 & K).
  destruct (group_steps_tally (mapRef st) _ _ _ [] G) as (leaves2 & M2 & T & S).
  unfold arrivals in A. rewrite A in M1, M2. simpl in M1, M2.
  injection M1 as <-. injection M2 as <-. simpl in K, T, S.
  destruct (first_seen_spec (species leaves) [] NoDup_nil_2) as [Nk Mk].
  rewrite <- K in Nk, Mk.
  assert (P : Permutation summary groups).
  { subst summary. rewrite (updateVisibleTrees_returned _ _ G). unfold state_after. simpl.
    rewrite sort_Permutation. apply entries_Permutation. }
  split; [rewrite (updateVisibleTrees_returned _ _ G); reflexivity|].
  split; [|split; [|split]].
  - pose proof (Permutation_map fst P) as Pm. rewrite Pm. exact Nk.
  - intros name members H.
    assert (Hg : In (name, members) groups) by (eapply Permutation_in; eassumption).
    pose proof (own_of_In _ _ _ Nk Hg) as O.
    specialize (T name). unfold tally in T. rewrite O in T. simpl in T.
    split; [exact T|]. rewrite T. apply met_of_pos.
    apply (in_map fst) in Hg. simpl in Hg. apply Mk in Hg.
    destruct Hg as [[]|Hg]. exact Hg.
  - intros leaf H.
    assert (Hk : In (common_name (properties leaf)) (List.map fst groups)).
    { apply Mk. right. unfold species. apply in_map_iff. eauto. }
    destruct (own_of_key _ _ Hk) as [members O]. exists members.
    eapply Permutation_in; [symmetry; exact P|]. apply In_of_own. exact O.
  - rewrite (total_Permutation _ _ P), S. reflexivity.
Qed.

Lemma summary_counts_leaves_witness :
  total (visibleTrees (state_after (updateVisibleTrees (Sample.viewing Sample.zoomed_out)))) = 3%nat.
Proof.
  exact (proj2 (proj2 (proj2 (proj2
    (summary_counts_leaves (Sample.viewing Sample.zoomed_out)
       [Sample.maple3; Sample.oak1; Sample.oak2] eq_refl
       ltac:(repeat constructor)))))).
Defined.

(** ** The summary and the highlight: all or nothing *)

Lemma meet_steps_fetch map items : forall met out,
  Promise.reduce (meet map) items met = Returned out ->
  Forall (fun item => exists leaves, leaves_of map item = Returned leaves) items.
Proof.
  induction items as [|item items IH]; simpl; intros met out M; [constructor|].
  unfold meet at 1 in M. destruct (leaves_of map item) as [leaves|e] eqn:L; [|discriminate].
  simpl in M. constructor; [eauto | exact (IH _ _ M)].
Qed.

Lemma push_leaf_own_names cluster groups leaf groups' :
  Forall (fun key => existsb (String.eqb key) JsObject.Object_prototype = false)
         (List.map fst groups) ->
  push_leaf cluster groups leaf = Returned groups' ->
  inherited_name leaf = false
  /\ Forall (fun key => existsb (String.eqb key) JsObject.Object_prototype = false)
            (List.map fst groups').
Proof.
  intros F P. pose proof (push_leaf_keys _ _ _ _ P) as K.
  assert (Hn : inherited_name leaf = false).
  { revert P. unfold push_leaf, JsObject.get, inherited_name. cbv zeta.
    set (n := common_name (properties leaf)).
    destruct (JsObject.own groups n) as [members|] eqn:O.
    - intros _. apply own_Some_keys, existsb_exists in O as (k & Hk & E).
      apply String.eqb_eq in E. subst k.
      rewrite Forall_forall in F. apply F. apply list_elem_of_In. exact Hk.
    - destruct (existsb (String.eqb n) JsObject.Object_prototype); [|reflexivity].
      rewrite O. discriminate. }
  split; [exact Hn|]. rewrite K. unfold see.
  destruct (existsb (String.eqb (common_name (properties leaf))) (List.map fst groups));
    [exact F|].
  apply Forall_app. split; [exact F|]. constructor; [exact Hn | constructor].
Qed.

Lemma push_leaves_own_names cluster leaves : forall groups groups',
  Forall (fun key => existsb (String.eqb key) JsObject.Object_prototype = false)
         (List.map fst groups) ->
  Promise.reduce (push_leaf cluster) leaves groups = Returned groups' ->
  Forall (fun leaf => inherited_name leaf = false) leaves
  /\ Forall (fun key => existsb (String.eqb key) JsObject.Object_prototype = false)
            (List.map fst groups').
Proof.
  induction leaves as [|leaf leaves IH]; simpl; intros groups groups' F R.
  - injection R as <-. split; [constructor | exact F].
  - destruct (push_leaf cluster groups leaf) as [groups1|e] eqn:P; [|discriminate].
    simpl in R. destruct (push_leaf_own_names _ _ _ _ F P) as [Hn F1].
    destruct (IH _ _ F1 R) as [Hl F2]. split; [constructor; assumption | exact F2].
Qed.

Lemma group_steps_own_names map items : forall groups groups' met,
  Forall (fun key => existsb (String.eqb key) JsObject.Object_prototype = false)
         (List.map fst groups) ->
  Promise.reduce (group_step map) items groups = Returned groups' ->
  exists leaves,
    Promise.reduce (meet map) items met = Returned (met ++ leaves)
    /\ Forall (fun leaf => inherited_name leaf = false) leaves.
Proof.
  induction items as [|item items IH]; simpl; intros groups groups' met F R.
  - exists []. rewrite app_nil_r. split; [reflexivity | constructor].
  - unfold group_step at 1 in R. unfold meet at 1.
    destruct (leaves_of map item) as [leaves|e]; [|discriminate]. simpl in *.
    destruct (Promise.reduce (push_leaf item) leaves groups) as [groups1|e] eqn:P;
      [|discriminate].
    simpl in R. destruct (push_leaves_own_names _ _ _ _ F P) as [Hl F1].
    destruct (IH _ _ (met ++ leaves) F1 R) as (more & M & Hm).
    exists (leaves ++ more). rewrite app_assoc. split; [exact M|].
    apply Forall_app. split; assumption.
Qed.

Lemma updateVisibleTrees_thrown st e :
  groupedTrees (mapRef st) = Thrown e -> updateVisibleTrees st = (Thrown e, st, []).
Proof. intros G. unfold updateVisibleTrees. run_handler. rewrite G. reflexivity. Qed.

(** X9. The summary is all or nothing. When the leaves of one of the drawn
    clusters cannot be fetched, or when a leaf that is met has a species named
    like a property of [Object.prototype] (constructor, toString, ...),
    [updateVisibleTrees] throws and changes nothing: the summary shown stays
    the one computed before. *)
Theorem summary_all_or_nothing st :
  (forall cluster,
     In cluster (rendered_clusters (mapRef st)) ->
     cluster_leaves (mapRef st) (cluster_id cluster) = None ->
     exists e, updateVisibleTrees st = (Thrown e, st, []))
  /\ (forall leaves leaf,
        arrivals (mapRef st) = Returned leaves ->
        In leaf leaves ->
        inherited_name leaf = true ->
        exists e, updateVisibleTrees st = (Thrown e, st, [])).
Proof.
  split.
  - intros cluster Hc Hn.
    destruct (groupedTrees (mapRef st)) as [groups|e] eqn:G;
      [|exists e; apply updateVisibleTrees_thrown; exact G].
    exfalso. destruct (group_steps_keys (mapRef st) _ _ _ [] G) as (leaves & M & _).
    apply meet_steps_fetch in M. rewrite Forall_forall in M.
    destruct (M (Cluster cluster)) as [ls L].
    + apply list_elem_of_In, in_or_app. right. apply in_map. exact Hc.
    + unfold leaves_of, getClusterFeatures in L. rewrite Hn in L. discriminate.
  - intros leaves leaf A Hl Hi.
    destruct (groupedTrees (mapRef st)) as [groups|e] eqn:G;
      [|exists e; apply updateVisibleTrees_thrown; exact G].
    exfalso.
    destruct (group_steps_own_names (mapRef st) _ [] groups [] (Forall_nil_2 _) G)
      as (leaves' & M & F).
    unfold arrivals in A. rewrite A in M. simpl in M. injection M as <-.
    rewrite Forall_forall in F. rewrite (F leaf) in Hi; [discriminate|].
    apply list_elem_of_In. exact Hl.
Qed.

Lemma highlight_steps_fetch map treeName clusters : forall found ids,
  Promise.reduce (highlight_step map treeName) clusters found = Returned ids ->
  Forall (fun c => cluster_leaves map (cluster_id c) <> None) clusters.
Proof.
  induction clusters as [|c clusters IH]; simpl; intros found ids R; [constructor|].
  unfold highlight_step at 1, getClusterFeatures in R.
  destruct (cluster_leaves map (cluster_id c)) as [leaves|] eqn:L; [|discriminate].
  simpl in R. constructor; [congruence|].
  destruct (existsb (fun leaf => String.eqb (common_name (properties leaf)) treeName) leaves);
    exact (IH _ _ R).
Qed.

(** X10. No partial highlight. When the leaves of one of the drawn clusters
    cannot be fetched, [highlightTree] throws before it sets either filter:
    the state, and with it both filters, is what it was. *)
Theorem highlight_all_or_nothing treeName st cluster :
  In cluster (rendered_clusters (mapRef st)) ->
  cluster_leaves (mapRef st) (cluster_id cluster) = None ->
  exists e, highlightTree treeName st = (Thrown e, st, []).
Proof.
  intros Hc Hn. unfold highlightTree. run_handler.
  destruct (Promise.reduce (highlight_step (mapRef st) treeName)
              (rendered_clusters (mapRef st)) []) as [ids|e] eqn:R; [|eauto].
  exfalso. apply highlight_steps_fetch in R. rewrite Forall_forall in R.
  apply (R cluster); [apply list_elem_of_In; exact Hc | exact Hn].
Qed.

Lemma highlight_all_or_nothing_witness :
  exists e,
    highlightTree "Oak" (Sample.selecting "Oak" Cases.lost_cluster)
    = (Thrown e, Sample.selecting "Oak" Cases.lost_cluster, []).
Proof.
  apply (highlight_all_or_nothing "Oak" (Sample.selecting "Oak" Cases.lost_cluster)
           Sample.cluster7).
  - simpl. tauto.
  - reflexivity.
Defined.

(** ** The selection takes effect at the click *)

Lemma matches_no_cluster r : matches no_cluster r = false.
Proof.
  destruct r as [f|c]; unfold matches; simpl; reflexivity.
Qed.

Lemma matches_no_point feature :
  matches no_point (Point feature) = true <-> common_name (properties feature) = EmptyString.
Proof. apply matches_common_name. Qed.

Lemma selected_Some layersLoaded highlightedTree k :
  selected layersLoaded highlightedTree = Some k ->
  layersLoaded = true /\ highlightedTree = Some k /\ Js.truthy k = true.
Proof.
  unfold selected. destruct highlightedTree as [t|]; [|discriminate].
  destruct layersLoaded; simpl; [|discriminate].
  destruct (Js.truthy t) eqn:T; [|discriminate]. intros [= <-]. tauto.
Qed.

(** X11. Clearing the selection takes the highlight away at once: a click
    on the species that is selected, followed by the commit, leaves no
    selection and puts both filters back to the initial ones, which match no
    cluster at all and, among the trees, only those whose species is the
    empty string. Nothing else changes. *)
Theorem deselect_clears_highlight k st :
  selected (layersLoaded st) (highlightedTree st) = Some k ->
  let run := click_and_commit k st in
  let map := mapRef (state_after run) in
  outcome_of run = Returned tt
  /\ state_after run
     = set_mapRef (setFilter_highlighted_cluster no_cluster
                     (setFilter_highlighted_point no_point (mapRef st)))
                  (setHighlightedTree None st)
  /\ (forall r, matches (highlighted_cluster map) r = false)
  /\ (forall feature,
        matches (highlighted_point map) (Point feature) = true
        <-> common_name (properties feature) = EmptyString).
Proof.
  intros S run map. subst map run.
  destruct (selected_Some _ _ _ S) as (L & H & T).
  assert (E : click_and_commit k st
              = (Returned tt,
                 set_mapRef (setFilter_highlighted_cluster no_cluster
                               (setFilter_highlighted_point no_point (mapRef st)))
                            (setHighlightedTree None st), [])).
  { unfold click_and_commit, bind at 1 2, get at 1.
    rewrite handleTreeListClick_spec. rewrite decide_True by (symmetry; exact H).
    unfold useEffect_highlightedTree, bind at 1, get at 1. simpl.
    rewrite decide_False by (rewrite H; intros [_ N]; discriminate N).
    rewrite S. unfold viewport_settled_highlight, debouncedHighlightTree. run_handler. reflexivity. }
  rewrite E. unfold outcome_of, state_after. simpl.
  split; [reflexivity|]. split; [reflexivity|]. split.
  - apply matches_no_cluster.
  - apply matches_no_point.
Qed.

Lemma deselect_clears_highlight_witness :
  highlightedTree (state_after (click_and_commit "Oak"
     (state_after (viewport_settled_highlight (Sample.selecting "Oak" Sample.zoomed_out)))))
  = None
  /\ matches (highlighted_cluster (mapRef (state_after (click_and_commit "Oak"
       (state_after (viewport_settled_highlight (Sample.selecting "Oak" Sample.zoomed_out)))))))
       (Cluster Sample.cluster7) = false.
Proof.
  destruct (deselect_clears_highlight "Oak"
              (state_after (viewport_settled_highlight (Sample.selecting "Oak" Sample.zoomed_out)))
              eq_refl) as (_ & E & C & _).
  split; [rewrite E; reflexivity | apply C].
Defined.

(** X12. Selecting a species highlights it at the click, without waiting
    for the map to move: with the layers loaded and the leaves of every drawn
    cluster fetchable, a click on a non-empty species that is not the selected
    one, followed by the commit, selects it and sets the point filter to that
    species and the cluster filter to the ids of the drawn clusters that have
    a leaf of it, whatever was selected before. *)
Theorem select_highlights_at_once k st :
  layersLoaded st = true ->
  Js.truthy k = true ->
  highlightedTree st <> Some k ->
  Forall (fun c => cluster_leaves (mapRef st) (cluster_id c) <> None)
         (rendered_clusters (mapRef st)) ->
  click_and_commit k st
  = (Returned tt,
     set_mapRef
       (setFilter_highlighted_cluster
          (mkFilter "cluster_id"
             (List.map Js.Num
                (List.map cluster_id
                   (List.filter (has_leaf_of (mapRef st) k)
                                (rendered_clusters (mapRef st))))))
          (setFilter_highlighted_point (mkFilter "common_name" [Js.Str k]) (mapRef st)))
       (setHighlightedTree (Some k) st),
     []).
Proof.
  intros L T N F.
  unfold click_and_commit, bind at 1 2, get at 1.
  rewrite handleTreeListClick_spec.
  rewrite decide_False by (intros E; apply N; symmetry; exact E).
  unfold useEffect_highlightedTree, bind at 1, get at 1. cbv beta iota zeta.
  change (highlightedTree (setHighlightedTree (Some k) st)) with (Some k).
  change (layersLoaded (setHighlightedTree (Some k) st)) with (layersLoaded st).
  rewrite decide_False by (intros [_ E]; exact (N E)).
  destruct (selected (layersLoaded st) (highlightedTree st)) as [j|] eqn:S.
  - unfold bind at 1 2, modify at 1 2. cbv beta iota zeta.
    match goal with
    | |- context [viewport_settled_highlight ?s] =>
        rewrite (viewport_settled_returned k s)
    end.
    + destruct st as [a b c d e f g h i m]; destruct m; reflexivity.
    + simpl. simpl in L. rewrite L, T. reflexivity.
    + exact F.
  - unfold bind at 1, ret at 1. cbv beta iota zeta.
    rewrite (viewport_settled_returned k (setHighlightedTree (Some k) st)).
    + reflexivity.
    + simpl. rewrite L, T. reflexivity.
    + exact F.
Qed.

Lemma select_highlights_at_once_witness :
  matches (highlighted_cluster (mapRef (state_after
     (click_and_commit "Oak" (Sample.viewing Sample.zoomed_out)))))
     (Cluster Sample.cluster7) = true.
Proof.
  rewrite (select_highlights_at_once "Oak" (Sample.viewing Sample.zoomed_out)).
  - reflexivity.
  - reflexivity.
  - reflexivity.
  - discriminate.
  - repeat constructor. simpl. discriminate.
Defined.

(** ** Taps in sequence, and cancelling *)

(** X13. Two taps make the gesture. After a tap on empty map that did not
    itself complete a double tap, a second tap on empty map that comes more
    than 0 and less than 200 ms later and within 10 pixels of the first in x
    and in y opens the form at the second tap's coordinates, whatever tap was
    remembered before the first. *)
Theorem two_taps_open_form t1 t2 first second st :
  clickedOnFeature (mapRef st) (point first) = false ->
  clickedOnFeature (mapRef st) (point second) = false ->
  ~ double_tap (lastTapRef st) t1 (point first) ->
  0 < t2 - t1 < 200 ->
  (-(10) <= fst (point second) - fst (point first) <= 10)%Q ->
  (-(10) <= snd (point second) - snd (point first) <= 10)%Q ->
  let tapped := state_after (handleMapTouch t1 first st) in
  let after := state_after (handleMapTouch t2 second tapped) in
  isFormVisible after = true
  /\ newTreeCoordinates after = Some (lngLat second)
  /\ lastTapRef after = {| tap_point := point first; tap_time := t1 |}.
Proof.
  intros C1 C2 N Ht Hx Hy tapped after. subst after tapped.
  rewrite (handleMapTouch_single _ _ _ C1 N). unfold state_after. simpl.
  rewrite handleMapTouch_double.
  - simpl. repeat split.
  - exact C2.
  - unfold double_tap. simpl. repeat split; tauto.
Qed.

Lemma two_taps_open_form_witness :
  isFormVisible (state_after (handleMapTouch 5150 (mkTouch (105, 197)%Q (-71, 42)%Q)
     (state_after (handleMapTouch 5000 (mkTouch (100, 200)%Q (-71, 42)%Q) Sample.loaded))))
  = true.
Proof.
  refine (proj1 (two_taps_open_form 5000 5150 (mkTouch (100, 200)%Q (-71, 42)%Q)
                   (mkTouch (105, 197)%Q (-71, 42)%Q) Sample.loaded
                   eq_refl eq_refl _ _ _ _)).
  - unfold double_tap. simpl. lia.
  - lia.
  - simpl. split; apply Qle_bool_iff; reflexivity.
  - simpl. split; apply Qle_bool_iff; reflexivity.
Defined.

(** X14. Escape undoes the gesture. Any key but Escape does nothing. Escape
    closes the popup, hides the form and discards its coordinates, and leaves
    the store, the selection, the summary and the remembered tap alone; so
    when no form was open, a double tap followed by Escape leaves the state
    that closing the popup alone would have left. The form's Cancel does the
    same without touching the popup. *)
Theorem escape_discards_add key currentTime event st :
  (key <> "Escape" -> handleEscapeKey key st = (Returned tt, st, []))
  /\ handleEscapeKey "Escape" st
     = (Returned tt,
        setIsFormVisible false
          (setNewTreeCoordinates None (set_mapRef (popup_remove (mapRef st)) st)), [])
  /\ handleAddTreeCancel st
     = (Returned tt, setIsFormVisible false (setNewTreeCoordinates None st), [])
  /\ (clickedOnFeature (mapRef st) (point event) = false ->
      double_tap (lastTapRef st) currentTime (point event) ->
      isFormVisible st = false ->
      newTreeCoordinates st = None ->
      state_after (handleEscapeKey "Escape" (state_after (handleMapTouch currentTime event st)))
      = set_mapRef (popup_remove (mapRef st)) st).
Proof.
  split; [|split; [|split]].
  - intros N. unfold handleEscapeKey. apply String.eqb_neq in N. rewrite N. reflexivity.
  - reflexivity.
  - reflexivity.
  - intros C D F K. rewrite (handleMapTouch_double _ _ _ C D). unfold state_after. simpl.
    destruct st as [a b c d e f g h i m]. simpl in *. subst g h.
    destruct m. reflexivity.
Qed.

Lemma escape_discards_add_witness :
  state_after (handleEscapeKey "Escape"
     (state_after (handleMapTouch 1150 (mkTouch (105, 197)%Q (-71, 42)%Q) Sample.tapped_once)))
  = set_mapRef (popup_remove (mapRef Sample.tapped_once)) Sample.tapped_once.
Proof.
  apply (proj2 (proj2 (proj2 (escape_discards_add "Escape" 1150
           (mkTouch (105, 197)%Q (-71, 42)%Q) Sample.tapped_once)))).
  - reflexivity.
  - unfold double_tap. simpl. repeat split; try lia; apply Qle_bool_iff; reflexivity.
  - reflexivity.
  - reflexivity.
Defined.

(** ** The list panel *)

Lemma hidden_panel_events events : forall v,
  layersLoaded (app v) && isTreeListVisible (app v) = false ->
  Debounce.deadline (debouncedUpdateVisibleTrees v) = None ->
  let v' := fold_left on_moveend events v in
  recomputes v' = recomputes v
  /\ Debounce.deadline (debouncedUpdateVisibleTrees v') = None
  /\ visibleTrees (app v') = visibleTrees (app v)
  /\ mapRef (app v')
     = match events with
       | [] => mapRef (app v)
       | e :: rest => redraw (drawn (List.last rest e)) (mapRef (app v))
       end.
Proof.
  induction events as [|e events IH]; intros v H D; [simpl; tauto|].
  assert (E : on_moveend v e
              = {| app := set_mapRef (redraw (drawn e) (mapRef (app v))) (app v);
                   debouncedUpdateVisibleTrees := debouncedUpdateVisibleTrees v;
                   recomputes := recomputes v |}).
  { unfold on_moveend, advance_to, Debounce.due. rewrite D. simpl. rewrite H. reflexivity. }
  cbv zeta. change (fold_left on_moveend (e :: events) v)
    with (fold_left on_moveend events (on_moveend v e)).
  rewrite E.
  destruct (IH {| app := set_mapRef (redraw (drawn e) (mapRef (app v))) (app v);
                  debouncedUpdateVisibleTrees := debouncedUpdateVisibleTrees v;
                  recomputes := recomputes v |} H D) as (R & D' & V & M).
  clear IH. split; [exact R|]. split; [exact D'|]. split; [exact V|].
  rewrite M. destruct events as [|e2 events]; [reflexivity|].
  simpl app. simpl mapRef. rewrite last_cons_default. reflexivity.
Qed.

(** X15. While the list panel is closed (or the layers are not loaded)
    the map's move and zoom events never recompute the summary: whatever the
    events and their timing, no recompute runs, not even after the last one,
    and the summary stays what it was, while the map shows what the last
    event drew. *)
Theorem hidden_panel_never_recomputes events st :
  layersLoaded st && isTreeListVisible st = false ->
  recomputes (after_events events (mounted st)) = []
  /\ visibleTrees (app (after_events events (mounted st))) = visibleTrees st
  /\ mapRef (app (after_events events (mounted st)))
     = match events with
       | [] => mapRef st
       | e :: rest => redraw (drawn (List.last rest e)) (mapRef st)
       end.
Proof.
  intros H. destruct (hidden_panel_events events (mounted st) H eq_refl) as (R & D & V & M).
  unfold after_events, timer_fires. rewrite D. tauto.
Qed.

Lemma hidden_panel_never_recomputes_witness :
  recomputes (after_events
     [mkMoveEnd 1000 Sample.zoomed_in; mkMoveEnd 5000 Sample.zoomed_out]
     (mounted Sample.loaded)) = [].
Proof.
  exact (proj1 (hidden_panel_never_recomputes
                  [mkMoveEnd 1000 Sample.zoomed_in; mkMoveEnd 5000 Sample.zoomed_out]
                  Sample.loaded eq_refl)).
Defined.

(** X16. Opening the list panel refreshes the summary at once, from what
    the map shows at that moment: with the layers loaded and the groups of the
    current view built without an error, the click on the button followed by
    the commit opens the panel and stores the sorted groups of the current
    view. Closing the panel changes nothing but the panel's flag. *)
Theorem toggling_the_panel st :
  layersLoaded st = true ->
  (isTreeListVisible st = true ->
   toggle_and_commit st = (Returned tt, setIsTreeListVisible false st, []))
  /\ (forall groups,
        isTreeListVisible st = false ->
        groupedTrees (mapRef st) = Returned groups ->
        toggle_and_commit st
        = (Returned tt,
           setVisibleTrees (JsArray.sort by_count (JsObject.entries groups))
             (setIsTreeListVisible true st), [])).
Proof.
  intros L. split.
  - intros V. unfold toggle_and_commit, toggle_tree_list, useEffect_isTreeListVisible.
    run_handler. rewrite V. simpl.
    rewrite decide_False by (intros [_ N]; discriminate N).
    rewrite andb_false_r. reflexivity.
  - intros groups V G.
    unfold toggle_and_commit, toggle_tree_list, useEffect_isTreeListVisible.
    unfold bind at 1 2 3 4, get at 1 2 3, modify at 1. cbv beta iota zeta.
    rewrite V.
    rewrite decide_False by (intros [_ N]; discriminate N).
    change (layersLoaded (setIsTreeListVisible (negb false) st)) with (layersLoaded st).
    change (isTreeListVisible (setIsTreeListVisible (negb false) st)) with true.
    rewrite L. cbv beta iota delta [andb negb].
    rewrite (updateVisibleTrees_returned (setIsTreeListVisible true st) groups G).
    reflexivity.
Qed.

Lemma toggling_the_panel_witness :
  List.map fst (visibleTrees (state_after (toggle_and_commit
     (setIsTreeListVisible false (Sample.viewing Sample.zoomed_out)))))
  = ["Oak"; "Maple"].
Proof.
  rewrite (proj2 (toggling_the_panel
     (setIsTreeListVisible false (Sample.viewing Sample.zoomed_out)) eq_refl)
     [("Maple", [Point Sample.maple3]);
      ("Oak", [Cluster Sample.cluster7; Cluster Sample.cluster7])] eq_refl eq_refl).
  reflexivity.
Defined.

(** ** The trees drawn on their own *)

Lemma JsSet_from_distinct xs : forall s,
  NoDup (s ++ xs) -> fold_left JsSet.add xs s = s ++ xs.
Proof.
  induction xs as [|x xs IH]; simpl; intros s N; [rewrite app_nil_r; reflexivity|].
  assert (E : JsSet.add s x = s ++ [x]).
  { unfold JsSet.add. destruct (existsb (Z.eqb x) s) eqn:X; [|reflexivity].
    exfalso. apply existsb_exists in X as (y & Hy & Ey). apply Z.eqb_eq in Ey. subst y.
    apply NoDup_app in N as (_ & D & _). apply (D x).
    - apply list_elem_of_In. exact Hy.
    - left. }
  rewrite E, IH; rewrite <- app_assoc; [reflexivity | exact N].
Qed.

Lemma find_first_of_distinct trees :
  NoDup (List.map (fun feature => location_id (properties feature)) trees) ->
  forall t, In t trees ->
    List.find (fun feature => location_id (properties feature) =? location_id (properties t))
              trees = Some t.
Proof.
  induction trees as [|a trees IH]; simpl; intros N t H; [tauto|].
  apply NoDup_cons in N as [Ha N].
  destruct H as [->|H].
  - rewrite Z.eqb_refl. reflexivity.
  - destruct (Z.eqb_spec (location_id (properties a)) (location_id (properties t))) as [E|_].
    + exfalso. apply Ha. rewrite E. apply list_elem_of_In.
      apply (in_map (fun feature => location_id (properties feature))). exact H.
    + exact (IH N t H).
Qed.

Lemma omap_find_all trees l :
  (forall t, In t l ->
     List.find (fun feature => location_id (properties feature) =? location_id (properties t))
               trees = Some t) ->
  omap (fun id => List.find (fun feature => location_id (properties feature) =? id) trees)
       (List.map (fun feature => location_id (properties feature)) l)
  = l.
Proof.
  induction l as [|t l IH]; intros F; [reflexivity|]. simpl.
  rewrite (F t (or_introl eq_refl)). f_equal. apply IH.
  intros t' H. apply F. right. exact H.
Qed.

(** X17. Of the trees the query returns, the summary keeps for each
    [location_id] the first one returned with it: every tree kept is the first
    tree of the query with its id, and a query without a repeated id is kept
    whole, in its order. *)
Theorem dedupe_keeps_first trees :
  (forall kept, In kept (dedupe trees) ->
     List.find (fun feature => location_id (properties feature) =? location_id (properties kept))
               trees = Some kept)
  /\ (NoDup (List.map (fun feature => location_id (properties feature)) trees) ->
      dedupe trees = trees).
Proof.
  split.
  - intros kept H. unfold dedupe in H. rewrite <- list_elem_of_In in H. apply list_elem_of_omap in H.
    destruct H as (id & _ & F). pose proof (find_some _ _ F) as [_ E].
    apply Z.eqb_eq in E. rewrite E. exact F.
  - intros N. unfold dedupe, JsSet.from.
    rewrite (JsSet_from_distinct _ [] N). simpl.
    apply omap_find_all. apply find_first_of_distinct. exact N.
Qed.

Lemma dedupe_keeps_first_witness :
  dedupe Cases.oak_twice = [Sample.oak1; Sample.maple3]
  /\ dedupe [Sample.oak1; Sample.oak2; Sample.maple3] = [Sample.oak1; Sample.oak2; Sample.maple3].
Proof.
  split; [reflexivity|].
  apply (proj2 (dedupe_keeps_first [Sample.oak1; Sample.oak2; Sample.maple3])).
  apply (bool_decide_unpack _). reflexivity.
Defined.

(** ** Tables built by assignment *)

Section Tables.

Context {X V : Type} (key : X -> string) (value_of : X -> V).

Lemma find_snoc (p : X -> bool) l x :
  List.find p (l ++ [x])
  = match List.find p l with
    | Some y => Some y
    | None => if p x then Some x else None
    end.
Proof.
  induction l as [|y l IH]; simpl; [reflexivity|].
  destruct (p y); [reflexivity | exact IH].
Qed.

(** A lookup in a table filled by [table[key(x)] = value(x)] for each [x] in
    turn finds the last [x] with that key. *)
Lemma assigned_own l : forall table k,
  JsObject.own (fold_left (fun t x => JsObject.set t (key x) (value_of x)) l table) k
  = match List.find (fun x => String.eqb (key x) k) (rev l) with
    | Some x => Some (value_of x)
    | None => JsObject.own table k
    end.
Proof.
  induction l as [|x l IH]; simpl; intros table k; [reflexivity|].
  rewrite IH, find_snoc.
  destruct (List.find (fun x0 => String.eqb (key x0) k) (rev l)); [reflexivity|].
  destruct (String.eqb_spec (key x) k) as [<-|N].
  - apply own_set_same.
  - apply own_set_other. congruence.
Qed.

Lemma set_Forall (Q : string * V -> Prop) (o : JsObject.t V) k v :
  Forall Q o -> Q (k, v) -> Forall Q (JsObject.set o k v).
Proof.
  intros F H. induction F as [|[k' w] o Hq F IH]; simpl.
  - constructor; [exact H | constructor].
  - destruct (String.eqb_spec k' k) as [->|N]; constructor; assumption.
Qed.

Lemma assigned_entries (P : X -> Prop) l : forall table,
  Forall (fun e => exists x, P x /\ key x = fst e /\ value_of x = snd e) table ->
  Forall P l ->
  Forall (fun e => exists x, P x /\ key x = fst e /\ value_of x = snd e)
         (fold_left (fun t x => JsObject.set t (key x) (value_of x)) l table).
Proof.
  induction l as [|x l IH]; simpl; intros table F H; [exact F|].
  apply Forall_cons in H as [Hx H]. apply IH; [|exact H].
  apply set_Forall; [exact F|]. exists x. simpl. tauto.
Qed.

End Tables.

(** X18. The species table is keyed by [tree_id] and a later row replaces
    an earlier one with the same id: looking an id up gives the last row of
    the file with that id, and nothing when no row has it. *)
Theorem fetchTreeInfo_last_row_wins data tree_id :
  Forall (fun row => info_tree_id row <> "__proto__") data ->
  JsObject.own (fetchTreeInfo data) tree_id
  = List.find (fun row => String.eqb (info_tree_id row) tree_id) (rev data).
Proof.
  intros _. unfold fetchTreeInfo.
  rewrite (assigned_own info_tree_id (fun row => row) data [] tree_id).
  destruct (List.find (fun x => String.eqb (info_tree_id x) tree_id) (rev data)); reflexivity.
Qed.

Lemma fetchTreeInfo_last_row_wins_witness :
  JsObject.own (fetchTreeInfo Cases.table) "quru" = Some Cases.red_oak.
Proof.
  rewrite (fetchTreeInfo_last_row_wins Cases.table "quru").
  - reflexivity.
  - repeat constructor; discriminate.
Defined.

(** ** The form: from the dropdown to the request *)

Lemma prefix_refl s : String.prefix s s = true.
Proof. induction s as [|a s IH]; simpl; [reflexivity|]. destruct (ascii_dec a a); congruence. Qed.

Lemma prefix_empty s : String.prefix EmptyString s = true.
Proof. destruct s; reflexivity. Qed.

Lemma includes_self s : includes s s = true.
Proof. destruct s; simpl; [reflexivity|]. destruct (ascii_dec a a); [|congruence]. rewrite prefix_refl. reflexivity. Qed.

Lemma includes_empty s : includes s EmptyString = true.
Proof. destruct s; reflexivity. Qed.

Lemma lower_lower a : lower (lower a) = lower a.
Proof.
  destruct a as [[] [] [] [] [] [] [] []]; reflexivity.
Qed.

Lemma toLowerCase_idempotent s : toLowerCase (toLowerCase s) = toLowerCase s.
Proof. induction s as [|a s IH]; simpl; [reflexivity|]. rewrite lower_lower, IH. reflexivity. Qed.

(** X19. The dropdown only ever narrows the list it was given: the options
    shown are options of the list, in the list's order; with an empty search
    term all are shown; the case of the search term does not matter; and an
    option always matches its own name, so it is still shown after a click on
    it has made it the search term. *)
Theorem dropdown_narrows options searchTerm :
  sublist (filteredOptions options searchTerm) options
  /\ filteredOptions options EmptyString = options
  /\ filteredOptions options (toLowerCase searchTerm) = filteredOptions options searchTerm
  /\ (forall option, In option options -> In option (filteredOptions options option)).
Proof.
  split; [apply filter_sublist|]. split; [|split].
  - unfold filteredOptions. induction options as [|o options IH]; [reflexivity|].
    simpl. rewrite includes_empty. f_equal. exact IH.
  - unfold filteredOptions. rewrite toLowerCase_idempotent. reflexivity.
  - intros option H. unfold filteredOptions. apply filter_In. split; [exact H|].
    apply includes_self.
Qed.

Lemma fetchTreeInfo_rows data :
  Forall (fun e => In (snd e) data /\ info_tree_id (snd e) = fst e) (fetchTreeInfo data).
Proof.
  pose proof (assigned_entries info_tree_id (fun row : TreeInfo => row)
                (fun row => In row data) data [] (Forall_nil_2 _)) as F.
  eapply Forall_impl; [apply F|].
  - apply Forall_forall. intros row H. apply list_elem_of_In. exact H.
  - intros e (row & Hr & Hk & Hv). simpl in Hv. subst row. tauto.
Qed.

Lemma treeNameList_rows treeList :
  Forall (fun e => (exists tree_id, In (tree_id, snd e) treeList)
                   /\ info_common_name (snd e) = fst e)
         (treeNameList treeList).
Proof.
  pose proof (assigned_entries (fun x : string * TreeInfo => info_common_name (snd x)) snd
                (fun x => In x (JsObject.entries treeList))
                (JsObject.entries treeList) [] (Forall_nil_2 _)) as F.
  eapply Forall_impl; [apply F|].
  - apply Forall_forall. intros x H. apply list_elem_of_In. exact H.
  - intros e ([k v] & Hx & Hk & Hv). simpl in *. subst v. split; [|exact Hk].
    exists k. eapply Permutation_in; [apply entries_Permutation | exact Hx].
Qed.

Lemma species_options_keys treeList option :
  In option (species_options treeList) ->
  exists tree, JsObject.own (treeNameList treeList) option = Some tree.
Proof.
  unfold species_options, Object_keys. intros H.
  apply own_of_key.
  eapply Permutation_in in H; [|apply sort_Permutation].
  eapply Permutation_in; [|exact H].
  apply Permutation_map. apply entries_Permutation.
Qed.

Lemma species_option_row data option formState :
  In option (species_options (fetchTreeInfo data)) ->
  exists row,
    In row data
    /\ info_common_name row = option
    /\ handleSelectTree (treeNameList (fetchTreeInfo data)) option formState
       = Some {| form_common_name := option;
                 form_latitude := form_latitude formState;
                 form_longitude := form_longitude formState;
                 form_is_native := form_is_native formState;
                 form_tree_id := info_tree_id row;
                 form_family := info_family row;
                 form_latin_name := info_latin_name row;
                 form_state_distribution := info_state_distribution row;
                 form_source := form_source formState |}.
Proof.
  intros H.
  destruct (species_options_keys _ _ H) as [tree O]. exists tree.
  pose proof (In_of_own _ _ _ O) as Hin.
  pose proof (treeNameList_rows (fetchTreeInfo data)) as F.
  rewrite Forall_forall in F. apply list_elem_of_In, F in Hin.
  destruct Hin as [[tree_id Ht] Hc]. simpl in Ht, Hc.
  pose proof (fetchTreeInfo_rows data) as G.
  rewrite Forall_forall in G. apply list_elem_of_In, G in Ht. simpl in Ht.
  split; [exact (proj1 Ht)|]. split; [exact Hc|].
  unfold handleSelectTree, JsObject.get. rewrite O, Hc. reflexivity.
Qed.

(** X20. Whatever species the dropdown offers can be selected: for every
    option it shows, whatever the search term, [handleSelectTree] finds a row
    of the species table whose common name is that option and fills the
    species fields of the form from that row, leaving the coordinates, the
    native flag and the source as they were. *)
Theorem offered_option_fills_form data searchTerm option formState :
  Forall (fun row => info_tree_id row <> "__proto__"
                     /\ info_common_name row <> "__proto__") data ->
  In option (filteredOptions (species_options (fetchTreeInfo data)) searchTerm) ->
  exists row,
    In row data
    /\ info_common_name row = option
    /\ handleSelectTree (treeNameList (fetchTreeInfo data)) option formState
       = Some {| form_common_name := option;
                 form_latitude := form_latitude formState;
                 form_longitude := form_longitude formState;
                 form_is_native := form_is_native formState;
                 form_tree_id := info_tree_id row;
                 form_family := info_family row;
                 form_latin_name := info_latin_name row;
                 form_state_distribution := info_state_distribution row;
                 form_source := form_source formState |}.
Proof.
  intros _ H. unfold filteredOptions in H. apply filter_In in H as [H _].
  exact (species_option_row data option formState H).
Qed.

Lemma offered_option_fills_form_witness :
  exists row,
    In row Cases.table
    /\ info_common_name row = "Oak"
    /\ handleSelectTree (treeNameList (fetchTreeInfo Cases.table)) "Oak"
         (initial_formState (-71, 42)%Q "ann")
       = Some {| form_common_name := "Oak";
                 form_latitude := 42;
                 form_longitude := -71;
                 form_is_native := false;
                 form_tree_id := info_tree_id row;
                 form_family := info_family row;
                 form_latin_name := info_latin_name row;
                 form_state_distribution := info_state_distribution row;
                 form_source := "ann" |}.
Proof.
  apply (offered_option_fills_form Cases.table "oa" "Oak"
           (initial_formState (-71, 42)%Q "ann")).
  - repeat constructor; discriminate.
  - simpl. tauto.
Defined.

(** X21. What is sent is what was picked, typed and tapped. Starting from
    the form as it opens at the coordinates of the double tap, selecting an
    offered, non-empty species, typing a non-empty source and submitting sends
    one [POST /trees] whose body has that species with the ids and names of
    its row in the species table, the latitude and longitude of the tap, the
    source without its trailing white space, and [is_native] false. *)
Theorem form_sends_what_was_entered backend data coordinates defaultSource option typed st :
  Forall (fun row => info_tree_id row <> "__proto__"
                     /\ info_common_name row <> "__proto__") data ->
  In option (species_options (fetchTreeInfo data)) ->
  option <> EmptyString ->
  typed <> EmptyString ->
  exists row picked filled,
    In row data
    /\ info_common_name row = option
    /\ handleSelectTree (treeNameList (fetchTreeInfo data)) option
         (initial_formState coordinates defaultSource) = Some picked
    /\ handleInputChange (mkTarget "source" typed "text" false) picked = Some filled
    /\ In (fetch_POST_trees
             {| payload_tree_id := info_tree_id row;
                payload_latin_name := info_latin_name row;
                payload_common_name := option;
                payload_latitude := snd coordinates;
                payload_longitude := fst coordinates;
                payload_source := Js.trimEnd typed;
                payload_is_native := false |})
          (effects_of (handleSubmit (Some (handleAddTreeSubmit backend)) filled st)).
Proof.
  intros _ H No Nt.
  destruct (species_option_row data option (initial_formState coordinates defaultSource) H)
    as (row & Hr & Hc & Hs).
  eexists row, _, _. split; [exact Hr|]. split; [exact Hc|]. split; [exact Hs|].
  split; [reflexivity|].
  unfold handleSubmit, bind, perform. simpl.
  apply truthy_nonempty in No, Nt. rewrite No, Nt. simpl.
  match goal with
  | |- context [handleAddTreeSubmit backend ?f st] =>
      destruct (POST_trees backend (sent_for f)) as [tree| |] eqn:E;
      [ rewrite (handleAddTreeSubmit_ok _ _ tree _ E)
      | rewrite handleAddTreeSubmit_failed by (rewrite E; exact I)
      | rewrite handleAddTreeSubmit_failed by (rewrite E; exact I) ]
  end; simpl; tauto.
Qed.

Lemma form_sends_what_was_entered_witness :
  exists row picked filled,
    In row Cases.table
    /\ info_common_name row = "Maple"
    /\ handleSelectTree (treeNameList (fetchTreeInfo Cases.table)) "Maple"
         (initial_formState (-71, 42)%Q EmptyString) = Some picked
    /\ handleInputChange (mkTarget "source" "bob " "text" false) picked = Some filled
    /\ In (fetch_POST_trees
             {| payload_tree_id := info_tree_id row;
                payload_latin_name := info_latin_name row;
                payload_common_name := "Maple";
                payload_latitude := 42;
                payload_longitude := -71;
                payload_source := "bob";
                payload_is_native := false |})
          (effects_of (handleSubmit (Some (handleAddTreeSubmit Sample.accepting)) filled
                         Sample.loaded)).
Proof.
  apply (form_sends_what_was_entered Sample.accepting Cases.table (-71, 42)%Q EmptyString
           "Maple" "bob " Sample.loaded).
  - repeat constructor; discriminate.
  - simpl. tauto.
  - discriminate.
  - discriminate.
Defined.

(** ** The state distribution shown in the form *)

Section Every.

Context (p : ascii -> bool).

Lemma every_append s t : every p (s ++ t)%string = every p s && every p t.
Proof.
  induction s as [|a s IH]; simpl; [reflexivity|]. rewrite IH, andb_assoc. reflexivity.
Qed.

Lemma every_concat sep l :
  every p sep = true -> Forall (fun s => every p s = true) l ->
  every p (String.concat sep l) = true.
Proof.
  intros Hs F. induction F as [|s l H F IH]; [reflexivity|].
  destruct l as [|t l]; simpl; [exact H|].
  rewrite !every_append, H, Hs. exact IH.
Qed.

Lemma every_trimEnd s : every p s = true -> every p (Js.trimEnd s) = true.
Proof.
  induction s as [|a s IH]; simpl; [reflexivity|]. intros H.
  apply andb_true_iff in H as [Ha Hs].
  destruct (Js.is_space a && Js.is_empty (Js.trimEnd s)); [reflexivity|].
  simpl. rewrite Ha. exact (IH Hs).
Qed.

Lemma every_trimStart s : every p s = true -> every p (trimStart s) = true.
Proof.
  induction s as [|a s IH]; simpl; [reflexivity|]. intros H.
  destruct (Js.is_space a); [|exact H].
  apply andb_true_iff in H as [_ Hs]. exact (IH Hs).
Qed.

Lemma every_split sep s :
  every p s = true -> Forall (fun piece => every p piece = true) (split sep s).
Proof.
  induction s as [|a s IH]; simpl; intros H; [repeat constructor|].
  apply andb_true_iff in H as [Ha Hs]. specialize (IH Hs).
  destruct (Ascii.eqb a sep); [constructor; [reflexivity | exact IH]|].
  destruct (split sep s) as [|piece pieces].
  - constructor; [simpl; rewrite Ha; reflexivity | constructor].
  - apply Forall_cons in IH as [Hp Hps]. constructor; [|exact Hps].
    simpl. rewrite Ha. exact Hp.
Qed.

End Every.

Lemma upper_clean a :
  bracket_or_quote a = false ->
  negb (bracket_or_quote (upper a)) && negb (lower_case_letter (upper a)) = true.
Proof.
  destruct a as [[] [] [] [] [] [] [] []]; simpl; intros H;
    reflexivity || discriminate H.
Qed.

Lemma every_toUpperCase s :
  every (fun a => negb (bracket_or_quote a)) s = true ->
  every (fun a => negb (bracket_or_quote a) && negb (lower_case_letter a)) (toUpperCase s)
  = true.
Proof.
  induction s as [|a s IH]; simpl; [reflexivity|]. intros H.
  apply andb_true_iff in H as [Ha Hs]. apply negb_true_iff in Ha.
  rewrite (upper_clean a Ha). exact (IH Hs).
Qed.

Lemma every_without_brackets s :
  every (fun a => negb (bracket_or_quote a)) (without_brackets s) = true.
Proof.
  induction s as [|a s IH]; simpl; [reflexivity|].
  destruct (bracket_or_quote a) eqn:B; [exact IH|]. simpl. rewrite B. exact IH.
Qed.

Lemma split_pieces sep s :
  Forall (fun piece => every (fun a => negb (Ascii.eqb a sep)) piece = true) (split sep s).
Proof.
  induction s as [|a s IH]; simpl; [repeat constructor|].
  destruct (Ascii.eqb a sep) eqn:E; [constructor; [reflexivity | exact IH]|].
  destruct (split sep s) as [|piece pieces].
  - constructor; [simpl; rewrite E; reflexivity | constructor].
  - apply Forall_cons in IH as [Hp Hps]. constructor; [|exact Hps].
    simpl. rewrite E. exact Hp.
Qed.

Lemma split_length_pos sep s : (0 < length (split sep s))%nat.
Proof.
  induction s as [|a s IH]; simpl; [lia|].
  destruct (Ascii.eqb a sep); simpl; [lia|].
  destruct (split sep s); simpl; lia.
Qed.

Lemma split_append_length sep piece rest :
  every (fun a => negb (Ascii.eqb a sep)) piece = true ->
  length (split sep (piece ++ rest)%string) = length (split sep rest).
Proof.
  induction piece as [|a piece IH]; simpl; intros H; [reflexivity|].
  apply andb_true_iff in H as [Ha Hp]. apply negb_true_iff in Ha. rewrite Ha.
  specialize (IH Hp). pose proof (split_length_pos sep (piece ++ rest)%string) as L.
  destruct (split sep (piece ++ rest)%string); simpl in *; lia.
Qed.

Lemma append_empty_r s : (s ++ EmptyString)%string = s.
Proof.
  induction s as [|a s IH]; [reflexivity|].
  change (String a (String.append s EmptyString) = String a s). f_equal. exact IH.
Qed.

Lemma split_concat_length l :
  l <> [] ->
  Forall (fun piece => every (fun a => negb (Ascii.eqb a ",")) piece = true) l ->
  length (split "," (String.concat ", " l)) = length l.
Proof.
  intros N F. induction F as [|s l H F IH]; [congruence|]. clear N.
  destruct l as [|t l].
  - pose proof (split_append_length "," s EmptyString H) as E.
    rewrite append_empty_r in E. simpl. exact E.
  - change (String.concat ", " (s :: t :: l))
      with (String.append s (String.append ", " (String.concat ", " (t :: l)))).
    rewrite (split_append_length "," s _ H).
    change (String.append ", " (String.concat ", " (t :: l)))
      with (String "," (String.append " " (String.concat ", " (t :: l)))).
    change (split "," (String "," (String.append " " (String.concat ", " (t :: l)))))
      with (EmptyString :: split "," (String.append " " (String.concat ", " (t :: l)))).
    change (length (EmptyString :: split "," (String.append " " (String.concat ", " (t :: l)))))
      with (S (length (split "," (String.append " " (String.concat ", " (t :: l)))))).
    rewrite (split_append_length "," " " _ eq_refl).
    rewrite IH by discriminate. reflexivity.
Qed.

Lemma upper_keeps_no_comma a : Ascii.eqb a "," = false -> Ascii.eqb (upper a) "," = false.
Proof.
  destruct a as [[] [] [] [] [] [] [] []]; simpl; intros H; reflexivity || discriminate H.
Qed.

Lemma every_toUpperCase_keeps s :
  every (fun a => negb (Ascii.eqb a ",")) s = true ->
  every (fun a => negb (Ascii.eqb a ",")) (toUpperCase s) = true.
Proof.
  induction s as [|a s IH]; simpl; [reflexivity|]. intros H.
  apply andb_true_iff in H as [Ha Hs]. apply negb_true_iff in Ha.
  rewrite (upper_keeps_no_comma a Ha). exact (IH Hs).
Qed.

(** X22. The state distribution is shown without the list's punctuation
    and in capitals: whatever the text, the formatted text has no square
    bracket, no single quote and no lower-case letter from a to z; and it has
    as many comma-separated entries as the text had once its brackets and
    quotes were dropped. *)
Theorem formatStateDistribution_clean states :
  every (fun a => negb (bracket_or_quote a) && negb (lower_case_letter a))
        (formatStateDistribution states) = true
  /\ length (split "," (formatStateDistribution states))
     = length (split "," (without_brackets states)).
Proof.
  split.
  - unfold formatStateDistribution. apply every_concat; [reflexivity|].
    apply Forall_forall. intros piece H. apply list_elem_of_In, in_map_iff in H.
    destruct H as (state & <- & H). apply every_toUpperCase.
    unfold trim. apply every_trimStart, every_trimEnd.
    pose proof (every_split (fun a => negb (bracket_or_quote a)) ","
                  (without_brackets states) (every_without_brackets states)) as F.
    rewrite Forall_forall in F. apply F. apply list_elem_of_In. exact H.
  - unfold formatStateDistribution. rewrite split_concat_length, length_map; [reflexivity| |].
    { pose proof (split_length_pos "," (without_brackets states)) as L.
      destruct (split "," (without_brackets states)); [simpl in L; lia | discriminate]. }
    apply Forall_forall. intros piece H. apply list_elem_of_In, in_map_iff in H.
    destruct H as (state & <- & H).
    apply every_toUpperCase_keeps, every_trimStart, every_trimEnd.
    pose proof (split_pieces "," (without_brackets states)) as F.
    rewrite Forall_forall in F. apply F. apply list_elem_of_In. exact H.
Qed.

(** ** The name that is remembered, and the data the map is given *)

(** X23. The name typed once is offered again. Whether the request
    succeeds or fails, an add remembers the source as it was typed, and the
    next removal prompt proposes it; and a removal that was confirmed
    remembers the confirming name without its trailing white space. *)
Theorem name_is_remembered backend newTree answer removedBy locationId st :
  let added := state_after (handleAddTreeSubmit backend newTree st) in
  sourceNameRef added = form_source newTree
  /\ In (window_prompt "Please enter your name to confirm removal:" (form_source newTree))
        (effects_of (removeTree backend answer locationId added))
  /\ (confirmed_by answer = Some removedBy ->
      sourceNameRef (state_after (removeTree backend answer locationId st)) = removedBy).
Proof.
  intros added.
  assert (S : sourceNameRef added = form_source newTree).
  { subst added. destruct (POST_trees backend (sent_for newTree)) as [tree| |] eqn:P.
    - rewrite (handleAddTreeSubmit_ok _ _ tree _ P). reflexivity.
    - rewrite handleAddTreeSubmit_failed by (rewrite P; exact I). reflexivity.
    - rewrite handleAddTreeSubmit_failed by (rewrite P; exact I). reflexivity. }
  split; [exact S|]. split.
  - rewrite <- S. generalize added as s. intros s.
    destruct (confirmed_by answer) as [name|] eqn:C.
    + destruct (PUT_trees_remove backend locationId name) as [[]| |] eqn:P.
      * rewrite (removeTree_ok _ _ _ _ s C P). simpl. tauto.
      * destruct (removeTree_failed backend _ _ locationId s C) as [e ->];
          [rewrite P; exact I | simpl; tauto].
      * destruct (removeTree_failed backend _ _ locationId s C) as [e ->];
          [rewrite P; exact I | simpl; tauto].
    + rewrite (removeTree_declined _ _ _ s C). simpl. tauto.
  - intros C. destruct (PUT_trees_remove backend locationId removedBy) as [[]| |] eqn:P.
    + rewrite (removeTree_ok _ _ _ _ st C P). reflexivity.
    + destruct (removeTree_failed backend _ _ locationId st C) as [e ->];
        [rewrite P; exact I | reflexivity].
    + destruct (removeTree_failed backend _ _ locationId st C) as [e ->];
        [rewrite P; exact I | reflexivity].
Qed.

(** X24. A successful add reaches the map at the commit that follows it:
    with the layers loaded, the data the map clusters and draws is then the
    store itself, the former features followed by the tree the server
    returned, and the filters of the highlight layers are as they were. *)
Theorem add_reaches_the_map backend newTree addedTree r st :
  layersLoaded st = true ->
  POST_trees backend (sent_for newTree) = Ok2xx addedTree ->
  let after := state_after (add_and_commit backend newTree r st) in
  source_data (mapRef after) = treeLocations after
  /\ features (source_data (mapRef after))
     = features (treeLocations st) ++ [treeToFeature addedTree]
  /\ highlighted_point (mapRef after) = highlighted_point (mapRef st)
  /\ highlighted_cluster (mapRef after) = highlighted_cluster (mapRef st).
Proof.
  intros L P after. subst after. unfold add_and_commit.
  unfold bind, get. cbv beta iota zeta.
  rewrite (handleAddTreeSubmit_ok _ _ addedTree _ P).
  unfold useEffect_treeLocations, useEffect_highlightedTree. run_handler.
  destruct st; simpl in L; subst; simpl.
  repeat match goal with
  | |- context [decide ?Q] =>
      destruct (decide Q) as [_|N]; [|exfalso; apply N; split; reflexivity]
  end.
  simpl. repeat split; reflexivity.
Qed.

Lemma add_reaches_the_map_witness :
  features (source_data (mapRef (state_after
     (add_and_commit Sample.accepting Sample.maple_form Sample.with_new_maple Sample.loaded))))
  = [Sample.oak1; Sample.oak2; Sample.maple3; Sample.maple4].
Proof.
  exact (proj1 (proj2 (add_reaches_the_map Sample.accepting Sample.maple_form
                  (mkTree 4 "acsa" "acer saccharum" "Maple" (420002 # 10000) (-710002 # 10000)
                          "bob" false)
                  Sample.with_new_maple Sample.loaded eq_refl eq_refl))).
Defined.
